(** * NotHotDog: the test-generation route, the analysis route and the QA agent

    A shallow embedding of three TypeScript sources:
    - [src/app/api/tools/generate-tests/route.ts]  ([extractJSON],
      [isValidEvaluation], [POST]),
    - the analyze-results route ([POST]),
    - [src/services/agents/claude/qaAgent.ts]      ([QaAgent.runTest],
      [getHistory], [reset]).

    JavaScript values that travel through the code as [any] are JSON trees,
    exceptions are a sum type, and the outside world (the language model, the
    API under test, the clock, the UUID generator) is an abstract state that
    the effectful operations transform. *)

From Stdlib Require Import String Ascii List ZArith Lia Bool.
Import ListNotations.

Local Open Scope string_scope.
Local Open Scope Z_scope.

Set Warnings "-register-all".

(* ================================================================== *)
(** * JavaScript values, strings and exceptions                        *)
(* ================================================================== *)

Module JS.

(** A value obtained from [JSON.parse].  An object keeps its fields as an
    association list, each key once, looked up from the left.  The payload of
    a number is never inspected by the code under study except for
    truthiness. *)
Inductive JSON : Type :=
| JNull
| JBool (b : bool)
| JNumber (n : Z)
| JString (s : string)
| JArray (items : list JSON)
| JObject (fields : list (string * JSON)).

(** An [Error] instance, with the two properties the code reads. *)
Record JsError : Type := mkError { name : string; message : string }.

(** What a [throw] carries: an instance of [Error], or any other value. *)
Inductive Thrown : Type :=
| ThrownError (e : JsError)
| ThrownValue (v : JSON).

(** [new Error(msg)] *)
Definition newError (msg : string) : Thrown :=
  ThrownError {| name := "Error"; message := msg |}.

(** [new TypeError(msg)], raised by the runtime on a bad property access. *)
Definition typeError (msg : string) : Thrown :=
  ThrownError {| name := "TypeError"; message := msg |}.

(** ** Computations that may throw *)

Definition Exc (A : Type) : Type := (Thrown + A)%type.

Definition ret {A : Type} (a : A) : Exc A := inr a.
Definition throw {A : Type} (e : Thrown) : Exc A := inl e.

Definition bind {A B : Type} (c : Exc A) (k : A -> Exc B) : Exc B :=
  match c with
  | inl e => inl e
  | inr a => k a
  end.

(** [try { body } catch (e) { handler e }] *)
Definition try_catch {A : Type} (body : Exc A) (handler : Thrown -> Exc A) : Exc A :=
  match body with
  | inl e => handler e
  | inr a => inr a
  end.

Declare Scope exc_scope.
Delimit Scope exc_scope with exc.
Notation "x <- c ;; k" := (bind c (fun x => k))
  (at level 61, c at next level, right associativity) : exc_scope.

(** ** Strings

    A string is a sequence of code units; one [ascii] stands for one code unit
    below 256. *)

(** [s.indexOf(c)] for a one-character needle: the position of the first
    occurrence, or [-1]. *)
Fixpoint indexOf_from (s : string) (c : ascii) (i : Z) : Z :=
  match s with
  | EmptyString => -1
  | String d s' => if Ascii.eqb d c then i else indexOf_from s' c (i + 1)
  end.

Definition indexOf (s : string) (c : ascii) : Z := indexOf_from s c 0.

Fixpoint drop (n : nat) (s : string) : string :=
  match n, s with
  | O, _ => s
  | S _, EmptyString => EmptyString
  | S n', String _ s' => drop n' s'
  end.

(** [s.slice(start)]: a negative [start] counts from the end, and the start
    is clamped to the string. *)
Definition slice (s : string) (start : Z) : string :=
  let len := Z.of_nat (String.length s) in
  let from := if start <? 0 then Z.max (len + start) 0 else Z.min start len in
  drop (Z.to_nat from) s.

(** The code units below 256 that ECMAScript's [trim] strips: TAB, LF, VT,
    FF, CR, SPACE and NO-BREAK SPACE. *)
Definition isWhiteSpace (c : ascii) : bool :=
  let n := nat_of_ascii c in
  orb (andb (Nat.leb 9 n) (Nat.leb n 13)) (orb (Nat.eqb n 32) (Nat.eqb n 160)).

Fixpoint trimStart (s : string) : string :=
  match s with
  | EmptyString => EmptyString
  | String c s' => if isWhiteSpace c then trimStart s' else s
  end.

Fixpoint trimEnd (s : string) : string :=
  match s with
  | EmptyString => EmptyString
  | String c s' =>
      match trimEnd s' with
      | EmptyString => if isWhiteSpace c then EmptyString else String c EmptyString
      | t => String c t
      end
  end.

(** [s.trim()] *)
Definition trim (s : string) : string := trimEnd (trimStart s).

(** [s.length] *)
Definition jsLength (s : string) : Z := Z.of_nat (String.length s).

(** The first and the last code unit of a string, when it has one. *)
Definition firstChar (s : string) : option ascii :=
  match s with
  | EmptyString => None
  | String c _ => Some c
  end.

Fixpoint lastChar (s : string) : option ascii :=
  match s with
  | EmptyString => None
  | String c EmptyString => Some c
  | String _ s' => lastChar s'
  end.

Definition notWhiteSpace (oc : option ascii) : bool :=
  match oc with
  | None => true
  | Some c => negb (isWhiteSpace c)
  end.

(** ** Dynamic operations on values *)

(** [!!v] *)
Definition truthy (v : JSON) : bool :=
  match v with
  | JNull => false
  | JBool b => b
  | JNumber n => negb (n =? 0)
  | JString s => negb (String.eqb s "")
  | JArray _ | JObject _ => true
  end.

(** The result of a property read: [None] is [undefined]. *)
Definition Value : Type := option JSON.

Definition truthyV (v : Value) : bool :=
  match v with
  | None => false
  | Some j => truthy j
  end.

(** [typeof v] *)
Definition typeof (v : Value) : string :=
  match v with
  | None => "undefined"
  | Some JNull => "object"
  | Some (JBool _) => "boolean"
  | Some (JNumber _) => "number"
  | Some (JString _) => "string"
  | Some (JArray _) => "object"
  | Some (JObject _) => "object"
  end.

(** [Array.isArray(v)] *)
Definition isArray (v : Value) : bool :=
  match v with
  | Some (JArray _) => true
  | _ => false
  end.

Fixpoint lookup (k : string) (fields : list (string * JSON)) : Value :=
  match fields with
  | [] => None
  | (k', v) :: rest => if String.eqb k k' then Some v else lookup k rest
  end.

(** [v.k] for one of the keys the code reads ([evaluations], [scenario],
    [expectedOutput]): none of them is a property of a string, a number, a
    boolean or an array, so only an object can answer; reading a property of
    [null] or [undefined] throws. *)
Definition getProp (v : Value) (k : string) : Exc Value :=
  match v with
  | None => throw (typeError "Cannot read properties of undefined")
  | Some JNull => throw (typeError "Cannot read properties of null")
  | Some (JObject fields) => ret (lookup k fields)
  | Some _ => ret None
  end.

(** [v?.k] *)
Definition getPropOpt (v : Value) (k : string) : Exc Value :=
  match v with
  | None | Some JNull => ret None
  | _ => getProp v k
  end.

(** [v.trim()]: defined on strings only. *)
Definition callTrim (v : Value) : Exc string :=
  match v with
  | Some (JString s) => ret (trim s)
  | None => throw (typeError "Cannot read properties of undefined")
  | Some JNull => throw (typeError "Cannot read properties of null")
  | Some _ => throw (typeError "trim is not a function")
  end.

(** [for]-style traversals of an array by a callback that may throw. *)
Fixpoint filterM {A : Type} (p : A -> Exc bool) (l : list A) : Exc (list A) :=
  match l with
  | [] => ret []
  | x :: rest =>
      (keep <- p x ;;
       rest' <- filterM p rest ;;
       ret (if keep then x :: rest' else rest'))%exc
  end.

Fixpoint mapM {A B : Type} (f : A -> Exc B) (l : list A) : Exc (list B) :=
  match l with
  | [] => ret []
  | x :: rest =>
      (y <- f x ;;
       rest' <- mapM f rest ;;
       ret (y :: rest'))%exc
  end.

(** ** Computations that may throw and act on an outside world [W] *)

Definition Eff (W A : Type) : Type := W -> Exc A * W.

Module Eff.

Definition ret {W A : Type} (a : A) : Eff W A := fun w => (inr a, w).
Definition throw {W A : Type} (e : Thrown) : Eff W A := fun w => (inl e, w).

Definition bind {W A B : Type} (c : Eff W A) (k : A -> Eff W B) : Eff W B :=
  fun w =>
    match c w with
    | (inl e, w') => (inl e, w')
    | (inr a, w') => k a w'
    end.

(** A pure step that may throw. *)
Definition lift {W A : Type} (c : Exc A) : Eff W A := fun w => (c, w).

(** An operation of the world that cannot fail. *)
Definition perform {W A : Type} (op : W -> A * W) : Eff W A :=
  fun w => let (a, w') := op w in (inr a, w').

Definition try_catch {W A : Type} (body : Eff W A) (handler : Thrown -> Eff W A) : Eff W A :=
  fun w =>
    match body w with
    | (inl e, w') => handler e w'
    | (inr a, w') => (inr a, w')
    end.

Fixpoint mapM {W A B : Type} (f : A -> Eff W B) (l : list A) : Eff W (list B) :=
  match l with
  | [] => ret []
  | x :: rest =>
      bind (f x) (fun y => bind (mapM f rest) (fun rest' => ret (y :: rest')))
  end.

End Eff.

Declare Scope eff_scope.
Delimit Scope eff_scope with eff.
Notation "x <- c ;; k" := (Eff.bind c (fun x => k))
  (at level 61, c at next level, right associativity) : eff_scope.

End JS.

(* ================================================================== *)
(** * The test-generation route                                        *)
(* ================================================================== *)

Module GenerateTests.
Import JS.

(** [{ evaluations: [] }] *)
Definition emptyEnvelope : JSON := JObject [("evaluations", JArray [])].

(** [{ evaluations: parsed }] *)
Definition wrapEvaluations (parsed : JSON) : JSON := JObject [("evaluations", parsed)].

Record Evaluation : Type := mkEvaluation { scenario : string; expectedOutput : string }.

Record TestCase : Type :=
  mkTestCase { id : string; caseScenario : string; caseExpectedOutput : string }.

Record Stats : Type := mkStats { total : Z; valid : Z; filtered : Z }.

(** The JSON body handed to [NextResponse.json]. *)
Inductive Body : Type :=
| TestCases (testCases : list TestCase) (stats : Stats)
| Failure (error : string) (details : string).

Record Response : Type := mkResponse { status : Z; body : Body }.

(** A request, as far as the handler reads it: the outcome of [req.json()]. *)
Record Request : Type := mkRequest { json : Exc JSON }.

(** What [validateGenerateTestsRequest] hands back. *)
Record GenerateTestsRequest : Type :=
  mkGenerateTestsRequest { inputExample : JSON; agentDescription : option string }.

(** Lines 15-25 of [extractJSON]: the text from the first [[] on, or else from
    the first [{] on; [None] on the early return, when neither occurs. *)
Definition locate (text : string) : option string :=
  let jsonStart := indexOf text "["%char in
  if jsonStart =? -1 then
    let objStart := indexOf text "{"%char in
    if objStart =? -1 then None else Some (slice text objStart)
  else Some (slice text jsonStart).

(** The envelope shape, entries left open: an object whose [evaluations]
    field is an array. *)
Definition hasEvaluations (v : JSON) : bool :=
  match v with
  | JObject fields => isArray (lookup "evaluations" fields)
  | _ => false
  end.

(** What the filter guarantees of an output entry, given the candidates. *)
Definition survivor (candidates : list JSON) (out : Evaluation) : Prop :=
  jsLength (trim (scenario out)) > 0 /\
  jsLength (trim (expectedOutput out)) > 0 /\
  trim (scenario out) = scenario out /\
  trim (expectedOutput out) = expectedOutput out /\
  exists x s e,
    In x candidates /\
    getProp (Some x) "scenario" = inr (Some (JString s)) /\
    getProp (Some x) "expectedOutput" = inr (Some (JString e)) /\
    scenario out = trim s /\ expectedOutput out = trim e.

(** A response whose body is [{ testCases: [], stats }]. *)
Definition emptyTestCases (r : Response) : bool :=
  match body r with
  | TestCases [] _ => true
  | _ => false
  end.

(** The response to a run in which no evaluation survives. *)
Definition noValidEvaluations : Response :=
  {| status := 500;
     body := Failure "Failed to generate evaluations" "No valid evaluations generated" |}.

Section Route.

(** The [jsonrepair] package and the built-in [JSON.parse]: each returns a
    result or throws. *)
Variable jsonrepair : string -> Exc string.
Variable JSON_parse : string -> Exc JSON.

(** Lines 27-36: repair, parse, and wrap a bare array. *)
Definition repairAndParse (text : string) : Exc JSON :=
  (repaired <- jsonrepair text ;;
   parsed <- JSON_parse repaired ;;
   if isArray (Some parsed) then ret (wrapEvaluations parsed) else ret parsed)%exc.

(** [extractJSON]; the [console.warn] calls leave the result untouched and
    are not modelled. *)
Definition extractJSON (text : string) : Exc JSON :=
  try_catch
    (match locate text with
     | None => ret emptyEnvelope
     | Some text' => repairAndParse text'
     end)
    (fun _ => ret emptyEnvelope).

(** [isValidEvaluation]: the truthiness of the chain of [&&], each operand
    evaluated only when the ones before it are truthy. *)
Definition isValidEvaluation (evaluation : Value) : Exc bool :=
  if negb (truthyV evaluation) then ret false else
  if negb (String.eqb (typeof evaluation) "object") then ret false else
  (s <- getProp evaluation "scenario" ;;
   if negb (String.eqb (typeof s) "string") then ret false else
   (s' <- callTrim s ;;
    if negb (jsLength s' >? 0) then ret false else
    (e <- getProp evaluation "expectedOutput" ;;
     if negb (String.eqb (typeof e) "string") then ret false else
     (e' <- callTrim e ;;
      ret (jsLength e' >? 0)))))%exc.

(** The callback of [.map] at lines 154-157. *)
Definition trimEvaluation (evaluation : JSON) : Exc Evaluation :=
  (s <- getProp (Some evaluation) "scenario" ;;
   s' <- callTrim s ;;
   e <- getProp (Some evaluation) "expectedOutput" ;;
   e' <- callTrim e ;;
   ret {| scenario := s'; expectedOutput := e' |})%exc.

(** Lines 152-157: [.filter(isValidEvaluation).map(...)] over the candidates. *)
Definition filterEvaluations (candidates : list JSON) : Exc (list Evaluation) :=
  (kept <- filterM (fun x => isValidEvaluation (Some x)) candidates ;;
   mapM trimEvaluation kept)%exc.

(** Lines 148-150: a value without an [evaluations] array is replaced by the
    empty envelope. *)
Definition normalizeEnvelope (evaluations : JSON) : Exc JSON :=
  (first <- getPropOpt (Some evaluations) "evaluations" ;;
   if negb (truthyV first) then ret emptyEnvelope else
   (again <- getProp (Some evaluations) "evaluations" ;;
    if negb (isArray again) then ret emptyEnvelope else ret evaluations))%exc.

(** [evaluations.evaluations], used as an array ([.filter], [.length]). *)
Definition evaluationsOf (evaluations : JSON) : Exc (list JSON) :=
  (field <- getProp (Some evaluations) "evaluations" ;;
   match field with
   | Some (JArray items) => ret items
   | _ => throw (typeError "evaluations.evaluations.filter is not a function")
   end)%exc.

(** The [stats] object of lines 171-175. *)
Definition statsOf (candidates : list JSON) (validEvaluations : list Evaluation) : Stats :=
  let total := Z.of_nat (List.length candidates) in
  let valid := Z.of_nat (List.length validEvaluations) in
  {| total := total; valid := valid; filtered := total - valid |}.

(** Lines 145-152: the candidate entries found in the model's text. *)
Definition candidatesIn (response : string) : Exc (list JSON) :=
  (extracted <- extractJSON response ;;
   evaluations <- normalizeEnvelope extracted ;;
   evaluationsOf evaluations)%exc.

(** The world of the handler: the language model behind the chain and the
    UUID generator. *)
Variable W : Type.
Variable Model : Type.
Variable validateGenerateTestsRequest : JSON -> Exc GenerateTestsRequest.
Variable NEXT_PUBLIC_ANTHROPIC_API_KEY : option string.
Variable Sonnet3_5 : string.
Variable createLangchainModel : string -> string -> Exc Model.
Variable chain_invoke : Model -> string -> JSON -> Eff W string.
Variable randomUUID : W -> string * W.

(** The [context] variable of the prompt (line 141). *)
Definition contextOf (agentDescription : option string) : string :=
  match agentDescription with
  | None | Some EmptyString => "Context derived from example input below:"
  | Some d => "Context: " ++ d
  end.

Definition toTestCase (evaluation : Evaluation) : Eff W TestCase :=
  (uuid <- Eff.perform randomUUID ;;
   Eff.ret {| id := uuid;
              caseScenario := scenario evaluation;
              caseExpectedOutput := expectedOutput evaluation |})%eff.

(** The body of the [try] block of [POST] (lines 122-176). *)
Definition handle (req : Request) : Eff W Response :=
  (body <- Eff.lift (json req) ;;
   request <- Eff.lift (validateGenerateTestsRequest body) ;;
   match NEXT_PUBLIC_ANTHROPIC_API_KEY with
   | None | Some EmptyString => Eff.throw (newError "API key not configured")
   | Some apiKey =>
       model <- Eff.lift (createLangchainModel Sonnet3_5 apiKey) ;;
       response <- chain_invoke model (contextOf (agentDescription request))
                                (inputExample request) ;;
       extracted <- Eff.lift (extractJSON response) ;;
       evaluations <- Eff.lift (normalizeEnvelope extracted) ;;
       candidates <- Eff.lift (evaluationsOf evaluations) ;;
       validEvaluations <- Eff.lift (filterEvaluations candidates) ;;
       if Z.of_nat (List.length validEvaluations) =? 0
       then Eff.throw (newError "No valid evaluations generated")
       else
         testCases <- Eff.mapM toTestCase validEvaluations ;;
         Eff.ret {| status := 200;
                    body := TestCases testCases (statsOf candidates validEvaluations) |}
   end)%eff.

(** [error instanceof Error ? error.message : 'Unknown error'] *)
Definition detailsOf (error : Thrown) : string :=
  match error with
  | ThrownError e => message e
  | ThrownValue _ => "Unknown error"
  end.

(** [POST]: whatever the [try] block throws becomes a 500 response. *)
Definition POST (req : Request) (w : W) : Response * W :=
  match handle req w with
  | (inr response, w') => (response, w')
  | (inl error, w') =>
      ({| status := 500;
          body := Failure "Failed to generate evaluations" (detailsOf error) |}, w')
  end.

End Route.

End GenerateTests.

(* ================================================================== *)
(** * The analyze-results route                                        *)
(* ================================================================== *)

Module AnalyzeResults.
Import JS.

Record LLMConfig : Type := mkLLMConfig { model : string; apiKey : string }.

Inductive Body : Type :=
| Analysis (analysis : JSON)
| Failure (error : string).

Record Response : Type := mkResponse { status : Z; body : Body }.

(** A request: the outcome of [req.json()] and the headers. *)
Record Request : Type :=
  mkRequest { json : Exc JSON; headers : list (string * string) }.

(** The world behind the route, with the inputs of the model invocations made
    so far, oldest first. *)
Record Trace (W : Type) : Type :=
  mkTrace { world : W; invocations : list string }.
Arguments mkTrace {W} _ _.
Arguments world {W} _.
Arguments invocations {W} _.

(** The response to a request without a usable model configuration. *)
Definition missingConfiguration : Response :=
  {| status := 400; body := Failure "Missing or invalid LLM configuration" |}.

Section Route.

Variable W : Type.
Variable Model : Type.
Variable validateAnalyzeResultsRequest : JSON -> Exc JSON.
Variable getLLMConfigForActiveModel : list (string * string) -> Exc (option LLMConfig).
Variable createLangchainModel : string -> string -> Exc Model.
Variable JSON_stringify : JSON -> string.
Variable chain_invoke : Model -> string -> Eff W JSON.

(** [analysisChain.invoke({ results })] *)
Definition invoke (m : Model) (results : string) : Eff (Trace W) JSON :=
  fun t =>
    let (r, w') := chain_invoke m results (world t) in
    (r, {| world := w'; invocations := invocations t ++ [results] |}).

(** The body of the [try] block (lines 38-64). *)
Definition handle (req : Request) : Eff (Trace W) Response :=
  (body <- Eff.lift (json req) ;;
   results <- Eff.lift (validateAnalyzeResultsRequest body) ;;
   config <- Eff.lift (getLLMConfigForActiveModel (headers req)) ;;
   match config with
   | None =>
       Eff.ret {| status := 400; body := Failure "Missing or invalid LLM configuration" |}
   | Some config =>
       m <- Eff.lift (createLangchainModel (model config) (apiKey config)) ;;
       analysis <- invoke m (JSON_stringify results) ;;
       Eff.ret {| status := 200; body := Analysis analysis |}
   end)%eff.

Definition POST (req : Request) (t : Trace W) : Response * Trace W :=
  match handle req t with
  | (inr response, t') => (response, t')
  | (inl _, t') => ({| status := 500; body := Failure "Failed to analyze results" |}, t')
  end.

End Route.

End AnalyzeResults.

(* ================================================================== *)
(** * The QA agent                                                     *)
(* ================================================================== *)

Module QaAgent.
Import JS.

Definition quote : string := String (ascii_of_nat 34) EmptyString.
Definition newline : string := String (ascii_of_nat 10) EmptyString.

Inductive Role : Type := user | assistant.

Record Metrics : Type := mkMetrics { responseTime : Z; validationScore : Z }.

Record TestMessage : Type :=
  mkTestMessage { id : string; chatId : string; role : Role; content : string;
                  metrics : Metrics }.

Record ConversationRecord : Type :=
  mkConversation { humanMessage : string; rawInput : JSON; rawOutput : JSON;
                   chatResponse : string; allMessages : list TestMessage }.

(** [metrics.responseTime] of the validation record is [totalTime]. *)
Record ValidationRecord : Type :=
  mkValidation { passedTest : bool; formatValid : bool; conditionMet : bool;
                 explanation : string; totalTime : Z }.

Record TestResult : Type :=
  mkTestResult { conversation : ConversationRecord; validation : ValidationRecord }.

Record ApiConfig : Type :=
  mkApiConfig { inputFormat : JSON; outputFormat : JSON; rules : JSON }.

Record QaAgentConfig : Type :=
  mkConfig { modelId : option string; apiConfig : ApiConfig; endpointUrl : string;
             headers : list (string * string) }.

(** The messages a [BufferMemory] with [returnMessages: true] keeps. *)
Inductive BaseMessage : Type :=
| HumanMessage (text : string)
| AIMessage (text : string).

(** One call of the API under test that returned: the request body and the
    raw response. *)
Record Exchange : Type := mkExchange { request : JSON; response : JSON }.

(** An agent and its surroundings: the outside world, the agent's memory, the
    calls of the API under test that returned (oldest first), and what went to
    [console.error]. *)
Record Agent (W : Type) : Type :=
  mkAgent { world : W; memory : list BaseMessage; exchanges : list Exchange;
            errors : list Thrown }.
Arguments mkAgent {W} _ _ _ _.
Arguments world {W} _.
Arguments memory {W} _.
Arguments exchanges {W} _.
Arguments errors {W} _.

(** The mutable locals of [runTest] that the loop updates. *)
Record Locals : Type :=
  mkLocals { apiResponse : JSON; lastResponse : string;
             transcript : list TestMessage; totalResponseTime : Z }.

(** [items.join(sep)] *)
Fixpoint join (sep : string) (items : list string) : string :=
  match items with
  | [] => ""
  | [x] => x
  | x :: rest => x ++ sep ++ join sep rest
  end.

Definition planPrompt (scenario expectedOutput : string) : string :=
  "Test this scenario: " ++ scenario ++ newline ++
  "Expected behavior: " ++ expectedOutput ++ newline ++ newline ++
  "Plan and start a natural conversation to test this scenario.".

Definition followUpPrompt (chatResponse plannedTurn : string) : string :=
  "Previous API response: " ++ quote ++ chatResponse ++ quote ++ newline ++ newline ++
  "Given this response and your plan: " ++ quote ++ plannedTurn ++ quote ++
  newline ++ newline ++ "Continue the conversation naturally.".

Definition renderMessage (m : TestMessage) : string :=
  (match role m with user => "Human" | assistant => "Assistant" end) ++ ": " ++ content m.

Definition analysisPrompt (scenario expectedOutput : string)
    (allMessages : list TestMessage) (formatValid conditionMet : bool) : string :=
  "Analyze if this conversation met our test expectations:" ++ newline ++ newline ++
  "Original scenario: " ++ scenario ++ newline ++
  "Expected behavior: " ++ expectedOutput ++ newline ++ newline ++
  "Conversation:" ++ newline ++
  join (newline ++ newline) (map renderMessage allMessages) ++ newline ++ newline ++
  "Consider that the response format was " ++
  (if formatValid then "valid" else "invalid") ++ newline ++
  "and the condition was " ++ (if conditionMet then "met" else "not met") ++ "." ++
  newline ++ newline ++
  "Did the interaction meet our expectations? Explain why or why not.".

(** [error instanceof Error && error.name === 'AbortError'] *)
Definition isAbortError (error : Thrown) : bool :=
  match error with
  | ThrownError e => String.eqb (name e) "AbortError"
  | ThrownValue _ => false
  end.

Definition timeoutError : Thrown := newError "API request timed out after 10 seconds".

(** The [catch] clause of lines 154-159. *)
Definition rethrowTimeout (error : Thrown) : Thrown :=
  if isAbortError error then timeoutError else error.

(** The roles of a transcript of [n] turns. *)
Fixpoint alternating (n : nat) : list Role :=
  match n with
  | O => []
  | S n' => user :: assistant :: alternating n'
  end.

(** What the agent needs from outside, over a world [W]: the chain over the
    language model, the API under test, the UUID generator and the clock; and
    the static helpers of [ConversationHandler], [ApiHandler] and
    [ResponseValidator], which are pure and free to throw. *)
Class Collaborators (W : Type) : Type := {
  chain_invoke : string -> Eff W string;
  callEndpoint : string -> list (string * string) -> JSON -> Eff W JSON;
  uuidv4 : W -> string * W;
  Date_now : W -> Z * W;
  extractTestMessage : string -> Exc string;
  extractConversationPlan : string -> Exc (option (list string));
  extractChatResponse : JSON -> JSON -> Exc string;
  formatInput : string -> JSON -> Exc JSON;
  validateResponseFormat : JSON -> JSON -> Exc bool;
  validateCondition : JSON -> JSON -> Exc bool
}.

Section Agent.

Context {W : Type} `{Collaborators W}.

Variable config : QaAgentConfig.

Definition inWorld {A : Type} (c : Eff W A) : Eff (Agent W) A :=
  fun a =>
    let (r, w') := c (world a) in
    (r, {| world := w'; memory := memory a; exchanges := exchanges a;
           errors := errors a |}).

(** [chain.invoke({ input })] *)
Definition invoke (input : string) : Eff (Agent W) string :=
  inWorld (chain_invoke input).

(** [ApiHandler.callEndpoint(endpointUrl, headers, body)]; a call that
    returns is recorded. *)
Definition call (body : JSON) : Eff (Agent W) JSON :=
  fun a =>
    match callEndpoint (endpointUrl config) (headers config) body (world a) with
    | (inr r, w') =>
        (inr r, {| world := w'; memory := memory a;
                   exchanges := exchanges a ++ [{| request := body; response := r |}];
                   errors := errors a |})
    | (inl e, w') =>
        (inl e, {| world := w'; memory := memory a; exchanges := exchanges a;
                   errors := errors a |})
    end.

Definition uuid : Eff (Agent W) string := inWorld (Eff.perform uuidv4).
Definition now : Eff (Agent W) Z := inWorld (Eff.perform Date_now).

(** [this.memory.saveContext({ input }, { output })].  [BufferMemory] reads
    the input value first and rejects a falsy one, here the empty string,
    before it writes anything; an empty output is accepted.  Then it appends
    the human message and the AI message, in this order. *)
Definition saveContext (input output : string) : Eff (Agent W) unit :=
  fun a =>
    if String.eqb input "" then
      (inl (newError ("input values have 1 keys, you must specify an input key " ++
                      "or pass only 1 key as input")), a)
    else
      (inr tt, {| world := world a;
                  memory := memory a ++ [HumanMessage input; AIMessage output];
                  exchanges := exchanges a; errors := errors a |}).

(** [console.error('Error in runTest:', error)] *)
Definition logError (error : Thrown) : Eff (Agent W) unit :=
  fun a =>
    (inr tt, {| world := world a; memory := memory a; exchanges := exchanges a;
                errors := errors a ++ [error] |}).

(** The two transcript entries of one turn. *)
Definition turnMessages (id1 id2 chat message reply : string) (time : Z)
  : list TestMessage :=
  [ {| id := id1; chatId := chat; role := user; content := message;
       metrics := {| responseTime := time; validationScore := 1 |} |};
    {| id := id2; chatId := chat; role := assistant; content := reply;
       metrics := {| responseTime := time; validationScore := 1 |} |} ].

(** Lines 81-86: the planning call and what is read off its result. *)
Definition planning (scenario expectedOutput : string)
  : Eff (Agent W) (string * option (list string)) :=
  (planResult <- invoke (planPrompt scenario expectedOutput) ;;
   testMessage <- Eff.lift (extractTestMessage planResult) ;;
   conversationPlan <- Eff.lift (extractConversationPlan planResult) ;;
   Eff.ret (testMessage, conversationPlan))%eff.

(** Lines 88-133: the initial turn.  Returns the formatted input, the chat
    id and the locals. *)
Definition initialTurn (testMessage : string) : Eff (Agent W) (JSON * string * Locals) :=
  (startTime <- now ;;
   formattedInput <- Eff.lift (formatInput testMessage (inputFormat (apiConfig config))) ;;
   apiResponse <- call formattedInput ;;
   chatResponse <- Eff.lift (extractChatResponse apiResponse (rules (apiConfig config))) ;;
   endTime <- now ;;
   let totalResponseTime := 0 + (endTime - startTime) in
   chat <- uuid ;;
   id1 <- uuid ;;
   id2 <- uuid ;;
   Eff.ret (formattedInput, chat,
            {| apiResponse := apiResponse; lastResponse := chatResponse;
               transcript := turnMessages id1 id2 chat testMessage chatResponse
                               totalResponseTime;
               totalResponseTime := totalResponseTime |}))%eff.

(** Lines 138-145: the next human message, the start of the clock and the
    request body of a follow-up turn. *)
Definition followUpRequest (plannedTurn : string) (l : Locals)
  : Eff (Agent W) (string * Z * JSON) :=
  (followUpResult <- invoke (followUpPrompt (lastResponse l) plannedTurn) ;;
   followUpMessage <- Eff.lift (extractTestMessage followUpResult) ;;
   startTime <- now ;;
   followUpInput <- Eff.lift (formatInput followUpMessage (inputFormat (apiConfig config))) ;;
   Eff.ret (followUpMessage, startTime, followUpInput))%eff.

(** Lines 147-159: the guarded call of the API under test. *)
Definition followUpCall (followUpInput : JSON) : Eff (Agent W) (JSON * string) :=
  Eff.try_catch
    (apiResponse <- call followUpInput ;;
     chatResponse <- Eff.lift (extractChatResponse apiResponse (rules (apiConfig config))) ;;
     Eff.ret (apiResponse, chatResponse))%eff
    (fun error => Eff.throw (rethrowTimeout error)).

(** One iteration of the loop of lines 137-190. *)
Definition followUpTurn (chat : string) (plannedTurn : string) (l : Locals)
  : Eff (Agent W) Locals :=
  (req <- followUpRequest plannedTurn l ;;
   let '(followUpMessage, startTime, followUpInput) := req in
   res <- followUpCall followUpInput ;;
   let '(apiResponse, chatResponse) := res in
   t1 <- now ;;
   let turnResponseTime := t1 - startTime in
   t2 <- now ;;
   id1 <- uuid ;;
   id2 <- uuid ;;
   Eff.ret {| apiResponse := apiResponse; lastResponse := chatResponse;
              transcript := transcript l ++
                turnMessages id1 id2 chat followUpMessage chatResponse turnResponseTime;
              totalResponseTime := totalResponseTime l + (t2 - startTime) |})%eff.

(** [for (const plannedTurn of conversationPlan) ...] *)
Fixpoint followUpTurns (chat : string) (plan : list string) (l : Locals)
  : Eff (Agent W) Locals :=
  match plan with
  | [] => Eff.ret l
  | plannedTurn :: rest =>
      (l' <- followUpTurn chat plannedTurn l ;; followUpTurns chat rest l')%eff
  end.

(** The turns the loop runs: none when the plan is absent. *)
Definition turnsOf (conversationPlan : option (list string)) : list string :=
  match conversationPlan with
  | Some plan => plan
  | None => []
  end.

(** Lines 136-191. *)
Definition multiTurn (chat : string) (conversationPlan : option (list string))
    (l : Locals) : Eff (Agent W) Locals :=
  match conversationPlan with
  | Some plan =>
      if Z.of_nat (List.length plan) >? 0 then followUpTurns chat plan l else Eff.ret l
  | None => Eff.ret l
  end.

(** Lines 193-236: validation, analysis, memory and the result. *)
Definition conclude (scenario expectedOutput testMessage : string)
    (formattedInput : JSON) (l : Locals) : Eff (Agent W) TestResult :=
  (formatValid <- Eff.lift (validateResponseFormat (apiResponse l)
                              (outputFormat (apiConfig config))) ;;
   conditionMet <- Eff.lift (validateCondition (apiResponse l) (rules (apiConfig config))) ;;
   analysisResult <- invoke (analysisPrompt scenario expectedOutput (transcript l)
                               formatValid conditionMet) ;;
   _ <- saveContext testMessage (lastResponse l) ;;
   Eff.ret {| conversation :=
                {| humanMessage := testMessage; rawInput := formattedInput;
                   rawOutput := apiResponse l; chatResponse := lastResponse l;
                   allMessages := transcript l |};
              validation :=
                {| passedTest := formatValid && conditionMet;
                   formatValid := formatValid; conditionMet := conditionMet;
                   explanation := analysisResult;
                   totalTime := totalResponseTime l |} |})%eff.

(** The [try] block of [runTest]. *)
Definition runTestBody (scenario expectedOutput : string) : Eff (Agent W) TestResult :=
  (p <- planning scenario expectedOutput ;;
   let '(testMessage, conversationPlan) := p in
   i <- initialTurn testMessage ;;
   let '(formattedInput, chat, l0) := i in
   l <- multiTurn chat conversationPlan l0 ;;
   conclude scenario expectedOutput testMessage formattedInput l)%eff.

(** [runTest]: an error is logged and thrown again. *)
Definition runTest (scenario expectedOutput : string) : Eff (Agent W) TestResult :=
  Eff.try_catch (runTestBody scenario expectedOutput)
    (fun error => (_ <- logError error ;; Eff.throw error)%eff).

(** [getHistory]: [memoryVars.chat_history || []]. *)
Definition getHistory : Eff (Agent W) (list BaseMessage) :=
  fun a => (inr (memory a), a).

(** [reset] *)
Definition reset : Eff (Agent W) unit :=
  fun a =>
    (inr tt, {| world := world a; memory := []; exchanges := exchanges a;
                errors := errors a |}).

(** One turn: a call of the API under test and the two transcript entries
    written for it. *)
Definition Turn (chat : string) (e : Exchange) (u s : TestMessage) : Prop :=
  role u = user /\ role s = assistant /\ chatId u = chat /\ chatId s = chat /\
  formatInput (content u) (inputFormat (apiConfig config)) = inr (request e) /\
  extractChatResponse (response e) (rules (apiConfig config)) = inr (content s).

(** The transcript follows the calls, turn by turn and in their order. *)
Inductive Paired (chat : string) : list Exchange -> list TestMessage -> Prop :=
| Paired_nil : Paired chat [] []
| Paired_cons e calls u s msgs :
    Turn chat e u s -> Paired chat calls msgs ->
    Paired chat (e :: calls) (u :: s :: msgs).

(** The last call returned [out], and the last turn of the transcript is the
    one written for it, with the reply [reply]. *)
Definition Ends (chat : string) (out : JSON) (reply : string)
    (calls : list Exchange) (msgs : list TestMessage) : Prop :=
  exists calls0 e msgs0 u s,
    calls = (calls0 ++ [e])%list /\ msgs = (msgs0 ++ [u; s])%list /\ Turn chat e u s /\
    response e = out /\ content s = reply.

End Agent.

End QaAgent.

(* ================================================================== *)
(** * Test doubles                                                     *)
(* ================================================================== *)

(** Deterministic stand-ins for the collaborators, used to run the routes and
    the agent on concrete inputs. *)
Module Doubles.
Import JS.

Definition quote : string := QaAgent.quote.

Definition syntaxError : Thrown :=
  ThrownError {| name := "SyntaxError"; message := "Unexpected token" |}.

(** The texts the scenarios feed to [JSON.parse], with the values they
    denote; every other text is rejected. *)
Definition twoEntries : string :=
  "[{" ++ quote ++ "scenario" ++ quote ++ ":" ++ quote ++ "a" ++ quote ++ "," ++
  quote ++ "expectedOutput" ++ quote ++ ":" ++ quote ++ "b" ++ quote ++ "},{}]".

Definition fooObject : string := "{" ++ quote ++ "foo" ++ quote ++ ":1}".

Definition blankEntry : string :=
  "[{" ++ quote ++ "scenario" ++ quote ++ ":" ++ quote ++ " " ++ quote ++ "}]".

Definition JSON_parse (text : string) : Exc JSON :=
  if String.eqb text twoEntries then
    ret (JArray [JObject [("scenario", JString "a"); ("expectedOutput", JString "b")];
                 JObject []])
  else if String.eqb text fooObject then ret (JObject [("foo", JNumber 1)])
  else if String.eqb text blankEntry then ret (JArray [JObject [("scenario", JString " ")]])
  else throw syntaxError.

(** A repair that leaves valid JSON as it is and gives up on the rest. *)
Definition jsonrepair (text : string) : Exc string :=
  (_ <- JSON_parse text ;; ret text)%exc.

(** A world for the routes: the model's next reply and a counter for UUIDs. *)
Record RouteWorld : Type := mkRouteWorld { reply : string; issued : nat }.

Definition validateGenerateTestsRequest (body : JSON) : Exc GenerateTests.GenerateTestsRequest :=
  ret {| GenerateTests.inputExample := body; GenerateTests.agentDescription := None |}.

Definition createLangchainModel (_ _ : string) : Exc unit := ret tt.

Definition chain_invoke (_ : unit) (_ : string) (_ : JSON) : Eff RouteWorld string :=
  fun w => (inr (reply w), w).

Definition randomUUID (w : RouteWorld) : string * RouteWorld :=
  ("uuid-" ++ String (ascii_of_nat (48 + issued w)) EmptyString,
   {| reply := reply w; issued := S (issued w) |}).

Definition generateTests (modelReply : string) : GenerateTests.Response * RouteWorld :=
  GenerateTests.POST jsonrepair JSON_parse RouteWorld unit validateGenerateTestsRequest
    (Some "key") "sonnet" createLangchainModel chain_invoke randomUUID
    {| GenerateTests.json := ret (JObject []) |}
    {| reply := modelReply; issued := 0 |}.

(** A configuration lookup that finds nothing in any headers. *)
Definition noConfiguration (_ : list (string * string))
  : Exc (option AnalyzeResults.LLMConfig) := ret None.

(** The analysis route over that lookup. *)
Definition analyzeResults (body : Exc JSON)
  : AnalyzeResults.Response * AnalyzeResults.Trace unit :=
  AnalyzeResults.POST unit unit (fun b => ret b) noConfiguration
    createLangchainModel (fun _ => "results") (fun _ _ w => (inr JNull, w))
    {| AnalyzeResults.json := body; AnalyzeResults.headers := [] |}
    {| AnalyzeResults.world := tt; AnalyzeResults.invocations := [] |}.

(** A scripted world for the agent: the replies the model and the API under
    test will give, in order, a clock and a counter for UUIDs. *)
Record Script : Type :=
  mkScript { modelReplies : list (Exc string); apiReplies : list (Exc JSON);
             clock : Z; uuids : nat }.

Definition exhausted : Thrown := newError "script exhausted".

Definition scripted_invoke (_ : string) : Eff Script string :=
  fun w =>
    match modelReplies w with
    | [] => (inl exhausted, w)
    | r :: rest =>
        (r, {| modelReplies := rest; apiReplies := apiReplies w; clock := clock w;
               uuids := uuids w |})
    end.

Definition scripted_callEndpoint (_ : string) (_ : list (string * string)) (_ : JSON)
  : Eff Script JSON :=
  fun w =>
    match apiReplies w with
    | [] => (inl exhausted, w)
    | r :: rest =>
        (r, {| modelReplies := modelReplies w; apiReplies := rest; clock := clock w;
               uuids := uuids w |})
    end.

Definition scripted_uuidv4 (w : Script) : string * Script :=
  ("uuid-" ++ String (ascii_of_nat (48 + uuids w)) EmptyString,
   {| modelReplies := modelReplies w; apiReplies := apiReplies w; clock := clock w;
      uuids := S (uuids w) |}).

(** Every reading of the clock finds it 5 ms later. *)
Definition scripted_now (w : Script) : Z * Script :=
  (clock w,
   {| modelReplies := modelReplies w; apiReplies := apiReplies w; clock := clock w + 5;
      uuids := uuids w |}).

(** The model's text is the message itself; a planning result [PLAN:m] asks
    for one follow-up turn, any other result for none. *)
Definition extractTestMessage (text : string) : Exc string := ret text.

Definition extractConversationPlan (text : string) : Exc (option (list string)) :=
  if String.prefix "PLAN:" text then ret (Some ["follow up"]) else ret None.

Definition extractChatResponse (apiResponse _ : JSON) : Exc string :=
  match apiResponse with
  | JString s => ret s
  | _ => ret ""
  end.

Definition formatInput (message : string) (_ : JSON) : Exc JSON :=
  ret (JObject [("message", JString message)]).

Definition validateResponseFormat (_ _ : JSON) : Exc bool := ret true.
Definition validateCondition (_ _ : JSON) : Exc bool := ret false.

Definition config : QaAgent.QaAgentConfig :=
  {| QaAgent.modelId := None;
     QaAgent.apiConfig := {| QaAgent.inputFormat := JNull; QaAgent.outputFormat := JNull;
                             QaAgent.rules := JNull |};
     QaAgent.endpointUrl := "http://localhost/api";
     QaAgent.headers := [] |}.

Definition freshAgent (w : Script) : QaAgent.Agent Script :=
  {| QaAgent.world := w; QaAgent.memory := []; QaAgent.exchanges := [];
     QaAgent.errors := [] |}.

Definition scripted : QaAgent.Collaborators Script :=
  {| QaAgent.chain_invoke := scripted_invoke;
     QaAgent.callEndpoint := scripted_callEndpoint;
     QaAgent.uuidv4 := scripted_uuidv4;
     QaAgent.Date_now := scripted_now;
     QaAgent.extractTestMessage := extractTestMessage;
     QaAgent.extractConversationPlan := extractConversationPlan;
     QaAgent.extractChatResponse := extractChatResponse;
     QaAgent.formatInput := formatInput;
     QaAgent.validateResponseFormat := validateResponseFormat;
     QaAgent.validateCondition := validateCondition |}.

Definition runTest (w : Script) : Exc QaAgent.TestResult * QaAgent.Agent Script :=
  @QaAgent.runTest Script scripted config "greets back" "a greeting" (freshAgent w).

(** A run with one follow-up turn: the API answers [r1], then [r2]. *)
Definition twoTurns : Script :=
  {| modelReplies := [inr "PLAN:hello"; inr "and then?"; inr "looks fine"];
     apiReplies := [inr (JString "r1"); inr (JString "r2")];
     clock := 1000; uuids := 0 |}.

Definition abortError : Thrown :=
  ThrownError {| name := "AbortError"; message := "The operation was aborted" |}.

(** The same run, with the second call of the API aborted. *)
Definition timedOut : Script :=
  {| modelReplies := [inr "PLAN:hello"; inr "and then?"; inr "looks fine"];
     apiReplies := [inr (JString "r1"); inl abortError];
     clock := 1000; uuids := 0 |}.

End Doubles.
(* ================================================================== *)
(** * The client of the test routes                                    *)
(* ================================================================== *)

(** [agentTestApi], the two [fetch] wrappers that follow the agent in
    [qaAgent.ts]. *)
Module AgentTestApi.
Import JS.

(** What the wrappers read of a [Response]: [res.ok] and the outcome of
    [res.json()]. *)
Record FetchResponse : Type := mkFetchResponse { ok : bool; json : Exc JSON }.

(** [v[0]]: the first element of an array, the first code unit of a string,
    the field [0] of an object; reading it off [null] or [undefined] throws. *)
Definition index0 (v : Value) : Exc Value :=
  match v with
  | None => throw (typeError "Cannot read properties of undefined")
  | Some JNull => throw (typeError "Cannot read properties of null")
  | Some (JArray items) => ret (hd_error items)
  | Some (JObject fields) => ret (lookup "0" fields)
  | Some (JString EmptyString) => ret None
  | Some (JString (String c _)) => ret (Some (JString (String c EmptyString)))
  | Some _ => ret None
  end.

(** A field of an object literal handed to [JSON.stringify]: left out when
    its value is [undefined]. *)
Definition field (k : string) (v : Value) : list (string * JSON) :=
  match v with
  | Some j => [(k, j)]
  | None => []
  end.

(** [headers], a record of strings, as a value. *)
Definition headersValue (headers : list (string * string)) : JSON :=
  JObject (map (fun kv => (fst kv, JString (snd kv))) headers).

(** [{ agentEndpoint, testCases: [{ input }], headers }] *)
Definition evaluatePayload (agentEndpoint : string) (input : Value)
    (headers : option (list (string * string))) : JSON :=
  JObject ([("agentEndpoint", JString agentEndpoint);
            ("testCases", JArray [JObject (field "input" input)])]
           ++ field "headers" (option_map headersValue headers))%list.

(** [{ actualResponse, expectedOutput }] *)
Definition validatePayload (actualResponse : Value) (expectedOutput : string) : JSON :=
  JObject (field "actualResponse" actualResponse
           ++ [("expectedOutput", JString expectedOutput)])%list.

Section Api.

Variable W : Type.

(** [fetch(url, { method: 'POST', body: JSON.stringify(payload) })]: it
    resolves to a response or rejects. *)
Variable fetch : string -> JSON -> Eff W FetchResponse.

(** The conversion to a string that [new Error(v)] applies to a value that is
    not a string. *)
Variable ToString : JSON -> string.

(** [new Error(v)]: no message for [undefined]. *)
Definition errorOf (v : Value) : Thrown :=
  newError (match v with
            | None => ""
            | Some (JString s) => s
            | Some j => ToString j
            end).

(** [evaluateAgent] *)
Definition evaluateAgent (agentEndpoint : string) (input : Value)
    (headers : option (list (string * string))) : Eff W Value :=
  (res <- fetch "/api/tools/evaluate-agent" (evaluatePayload agentEndpoint input headers) ;;
   data <- Eff.lift (json res) ;;
   if negb (ok res) then
     (error <- Eff.lift (getProp (Some data) "error") ;; Eff.throw (errorOf error))
   else
     (results <- Eff.lift (getProp (Some data) "results") ;;
      Eff.lift (index0 results)))%eff.

(** [validateResponse] *)
Definition validateResponse (actualResponse : Value) (expectedOutput : string)
  : Eff W JSON :=
  (res <- fetch "/api/tools/validate-response"
                (validatePayload actualResponse expectedOutput) ;;
   data <- Eff.lift (json res) ;;
   if negb (ok res) then
     (error <- Eff.lift (getProp (Some data) "error") ;; Eff.throw (errorOf error))
   else Eff.ret data)%eff.

End Api.

End AgentTestApi.

(* ================================================================== *)
(** * The construction of an agent                                     *)
(* ================================================================== *)

Module QaAgentConstructor.
Import JS QaAgent.

(** The private fields of a [QaAgent], the constant prompt apart. *)
Record Instance (Model : Type) : Type :=
  mkInstance { model : Model; config : QaAgentConfig; history : list BaseMessage }.
Arguments mkInstance {Model} _ _ _.
Arguments model {Model} _.
Arguments config {Model} _.
Arguments history {Model} _.

Section Constructor.

Variable Model : Type.
Variable NEXT_PUBLIC_ANTHROPIC_API_KEY : option string.
Variable Sonnet3_5 : string.
Variable createLangchainModel : string -> string -> Exc Model.

(** [config.modelId || AnthropicModel.Sonnet3_5] *)
Definition modelIdOf (cfg : QaAgentConfig) : string :=
  match modelId cfg with
  | None | Some EmptyString => Sonnet3_5
  | Some m => m
  end.

(** The constructor (lines 22-70): it needs the key, asks the factory for the
    model and starts with an empty [BufferMemory]. *)
Definition constructor (cfg : QaAgentConfig) : Exc (Instance Model) :=
  match NEXT_PUBLIC_ANTHROPIC_API_KEY with
  | None | Some EmptyString => throw (newError "NEXT_PUBLIC_ANTHROPIC_API_KEY is not set")
  | Some apiKey =>
      (m <- createLangchainModel (modelIdOf cfg) apiKey ;;
       ret {| model := m; config := cfg; history := [] |})%exc
  end.

(** A new agent in a world [w]: nothing called and nothing logged yet. *)
Definition started {W : Type} (i : Instance Model) (w : W) : Agent W :=
  {| world := w; memory := history i; exchanges := []; errors := [] |}.

End Constructor.

End QaAgentConstructor.

(* ================================================================== *)
(** * Observations on the routes and on the agent                      *)
(* ================================================================== *)

Module Observations.
Import JS.

(** The object literal that the callback of [.map] builds (lines 154-157 of
    the test-generation route), as a value. *)
Definition evaluationValue (e : GenerateTests.Evaluation) : JSON :=
  JObject [("scenario", JString (GenerateTests.scenario e));
           ("expectedOutput", JString (GenerateTests.expectedOutput e))].

(** The entries that the handler goes on to filter, given what the extractor
    returned: the array under [evaluations], and nothing when there is no such
    array. *)
Definition entriesOf (extracted : JSON) : list JSON :=
  match extracted with
  | JObject fields =>
      match lookup "evaluations" fields with
      | Some (JArray items) => items
      | _ => []
      end
  | _ => []
  end.

(** A test case whose two texts are trimmed and not blank. *)
Definition tidy (scenario expectedOutput : string) : Prop :=
  jsLength (trim scenario) > 0 /\ jsLength (trim expectedOutput) > 0 /\
  trim scenario = scenario /\ trim expectedOutput = expectedOutput.

(** A string with something in it besides white space. *)
Definition notBlank (s : string) : Prop := jsLength (trim s) > 0.

(** A computation of the agent that leaves the memory and the error log as
    they are, whatever its outcome. *)
Definition Quiet {W A : Type} (c : Eff (QaAgent.Agent W) A) : Prop :=
  forall a r a', c a = (r, a') ->
    QaAgent.memory a' = QaAgent.memory a /\ QaAgent.errors a' = QaAgent.errors a.

(** The transcript written turn by turn: both entries of a turn carry the
    placeholder score and the same response time. *)
Inductive Timed : list QaAgent.TestMessage -> Prop :=
| Timed_nil : Timed []
| Timed_turn u s rest :
    QaAgent.validationScore (QaAgent.metrics u) = 1 ->
    QaAgent.validationScore (QaAgent.metrics s) = 1 ->
    QaAgent.responseTime (QaAgent.metrics u) = QaAgent.responseTime (QaAgent.metrics s) ->
    Timed rest -> Timed (u :: s :: rest).

(** The sum of the response times that the turns of a transcript report,
    read off the [user] entries. *)
Fixpoint turnTimes (msgs : list QaAgent.TestMessage) : Z :=
  match msgs with
  | [] => 0
  | m :: rest =>
      match QaAgent.role m with
      | QaAgent.user => QaAgent.responseTime (QaAgent.metrics m) + turnTimes rest
      | QaAgent.assistant => turnTimes rest
      end
  end.

(** A clock that does not go back between two readings in a row. *)
Definition steady {W : Type} (Date_now : W -> Z * W) : Prop :=
  forall w, fst (Date_now w) <= fst (Date_now (snd (Date_now w))).

End Observations.

(* ================================================================== *)
(** * More test doubles                                                *)
(* ================================================================== *)

Module MoreDoubles.
Import JS.

(** The test-generation route in a deployment without the API key. *)
Definition generateTestsWithoutKey (body : Exc JSON)
  : GenerateTests.Response * Doubles.RouteWorld :=
  GenerateTests.POST Doubles.jsonrepair Doubles.JSON_parse Doubles.RouteWorld unit
    Doubles.validateGenerateTestsRequest None "sonnet" Doubles.createLangchainModel
    Doubles.chain_invoke Doubles.randomUUID
    {| GenerateTests.json := body |}
    {| Doubles.reply := Doubles.twoEntries; Doubles.issued := 0 |}.

Definition boom : Thrown := newError "model unavailable".

(** The model fails on the planning call. *)
Definition planFails : Doubles.Script :=
  {| Doubles.modelReplies := [inl boom]; Doubles.apiReplies := [];
     Doubles.clock := 1000; Doubles.uuids := 0 |}.

(** The first call of the API under test is aborted. *)
Definition initialAbort : Doubles.Script :=
  {| Doubles.modelReplies := [inr "hello"];
     Doubles.apiReplies := [inl Doubles.abortError];
     Doubles.clock := 1000; Doubles.uuids := 0 |}.

(** What [fetch] throws when the network is down: an [Error] that is no
    [AbortError]. *)
Definition fetchFailed : Thrown :=
  ThrownError {| name := "TypeError"; message := "fetch failed" |}.

(** A run with one follow-up turn whose second call of the API fails for a
    reason other than a timeout. *)
Definition networkDown : Doubles.Script :=
  {| Doubles.modelReplies := [inr "PLAN:hello"; inr "and then?"; inr "looks fine"];
     Doubles.apiReplies := [inr (JString "r1"); inl fetchFailed];
     Doubles.clock := 1000; Doubles.uuids := 0 |}.

(** The model plans an empty opening message. *)
Definition emptyMessage : Doubles.Script :=
  {| Doubles.modelReplies := [inr ""; inr "looks fine"];
     Doubles.apiReplies := [inr (JString "r1")];
     Doubles.clock := 1000; Doubles.uuids := 0 |}.

Definition runOn (a : QaAgent.Agent Doubles.Script)
  : Exc QaAgent.TestResult * QaAgent.Agent Doubles.Script :=
  @QaAgent.runTest Doubles.Script Doubles.scripted Doubles.config
    "greets back" "a greeting" a.

(** An agent that has run before: its memory holds an older exchange. *)
Definition usedAgent : QaAgent.Agent Doubles.Script :=
  {| QaAgent.world := Doubles.twoTurns;
     QaAgent.memory := [QaAgent.HumanMessage "earlier"; QaAgent.AIMessage "reply"];
     QaAgent.exchanges := []; QaAgent.errors := [] |}.

(** A configuration that names no model. *)
Definition construct (key : option string)
  : Exc (QaAgentConstructor.Instance unit) :=
  QaAgentConstructor.constructor unit key "sonnet" Doubles.createLangchainModel
    Doubles.config.

(** A server that answers every request with the same response. *)
Definition canned (res : AgentTestApi.FetchResponse)
  : string -> JSON -> Eff unit AgentTestApi.FetchResponse :=
  fun _ _ w => (inr res, w).

(** A response that is not ok, whose body carries both an error and
    results. *)
Definition refused : AgentTestApi.FetchResponse :=
  {| AgentTestApi.ok := false;
     AgentTestApi.json :=
       inr (JObject [("error", JString "agent unreachable");
                     ("results", JArray [JString "stale"])]) |}.

End MoreDoubles.


(* ================================================================== *)
(** * Facts about strings and about the two monads                     *)
(* ================================================================== *)

Module JSFacts.
Import JS.

Lemma trimStart_first (s : string) : notWhiteSpace (firstChar (trimStart s)) = true.
Proof.
  induction s as [|c s IH]; simpl; [reflexivity|].
  destruct (isWhiteSpace c) eqn:Hc; [exact IH|].
  simpl. now rewrite Hc.
Qed.

Lemma trimStart_fixed (s : string) :
  notWhiteSpace (firstChar s) = true -> trimStart s = s.
Proof.
  destruct s as [|c s]; simpl; [reflexivity|].
  intros H. apply negb_true_iff in H. now rewrite H.
Qed.

Lemma trimEnd_first (s : string) :
  notWhiteSpace (firstChar s) = true -> firstChar (trimEnd s) = firstChar s.
Proof.
  destruct s as [|c s]; simpl; [reflexivity|].
  intros H. apply negb_true_iff in H. rewrite H.
  now destruct (trimEnd s).
Qed.

Lemma trimEnd_idem (s : string) : trimEnd (trimEnd s) = trimEnd s.
Proof.
  induction s as [|c s IH]; simpl; [reflexivity|].
  destruct (trimEnd s) as [|d t] eqn:Ht.
  - destruct (isWhiteSpace c) eqn:Hc; simpl; [reflexivity|now rewrite Hc].
  - change (trimEnd (String c (String d t)))
      with (match trimEnd (String d t) with
            | EmptyString => if isWhiteSpace c then EmptyString else String c EmptyString
            | String a u => String c (String a u)
            end).
    now rewrite IH.
Qed.

Lemma trimEnd_last (s : string) : notWhiteSpace (lastChar (trimEnd s)) = true.
Proof.
  induction s as [|c s IH]; simpl; [reflexivity|].
  destruct (trimEnd s) as [|d t] eqn:Ht.
  - destruct (isWhiteSpace c) eqn:Hc; simpl; [reflexivity|now rewrite Hc].
  - exact IH.
Qed.

(** Trimming a trimmed string changes nothing. *)
Lemma trim_idem (s : string) : trim (trim s) = trim s.
Proof.
  unfold trim.
  rewrite (trimStart_fixed (trimEnd (trimStart s))).
  - apply trimEnd_idem.
  - rewrite trimEnd_first; apply trimStart_first.
Qed.

(** A trimmed string neither starts nor ends with white space. *)
Lemma trim_ends (s : string) :
  notWhiteSpace (firstChar (trim s)) = true /\ notWhiteSpace (lastChar (trim s)) = true.
Proof.
  unfold trim. split.
  - rewrite trimEnd_first; apply trimStart_first.
  - apply trimEnd_last.
Qed.

Lemma bind_inr {W A B : Type} (c : Eff W A) (k : A -> Eff W B) w b w' :
  Eff.bind c k w = (inr b, w') ->
  exists a w1, c w = (inr a, w1) /\ k a w1 = (inr b, w').
Proof.
  unfold Eff.bind. destruct (c w) as [[e|a] w1]; intros H; [discriminate|].
  now exists a, w1.
Qed.

Lemma bind_step {W A B : Type} (c : Eff W A) (k : A -> Eff W B) w a w1 :
  c w = (inr a, w1) -> Eff.bind c k w = k a w1.
Proof. unfold Eff.bind. now intros ->. Qed.

Lemma bind_fail {W A B : Type} (c : Eff W A) (k : A -> Eff W B) w e w1 :
  c w = (inl e, w1) -> Eff.bind c k w = (inl e, w1).
Proof. unfold Eff.bind. now intros ->. Qed.

Lemma lift_inr {W A : Type} (c : Exc A) (w w' : W) a :
  Eff.lift c w = (inr a, w') -> c = inr a /\ w' = w.
Proof. unfold Eff.lift. intros H. now inversion H. Qed.

Lemma mapM_length {W A B : Type} (f : A -> Eff W B) (l : list A) :
  forall w out w', Eff.mapM f l w = (inr out, w') -> List.length out = List.length l.
Proof.
  induction l as [|x l IH]; simpl; intros w out w' H.
  - inversion H. reflexivity.
  - apply bind_inr in H as (y & w1 & _ & H).
    apply bind_inr in H as (rest & w2 & Hrest & H).
    inversion H. simpl. f_equal. eapply IH, Hrest.
Qed.

End JSFacts.

(* ================================================================== *)
(** * Properties of the test-generation route                          *)
(* ================================================================== *)

Module GenerateTestsSpec.
Import JS JSFacts GenerateTests.

Section Extractor.

Variable jsonrepair : string -> Exc string.
Variable JSON_parse : string -> Exc JSON.

Local Abbreviation extractJSON := (extractJSON jsonrepair JSON_parse).
Local Abbreviation repairAndParse := (repairAndParse jsonrepair JSON_parse).

Lemma emptyEnvelope_shape : hasEvaluations emptyEnvelope = true.
Proof. reflexivity. Qed.

(** What [extractJSON] returns, case by case. *)
Lemma extractJSON_cases (text : string) :
  extractJSON text =
  inr (match locate text with
       | None => emptyEnvelope
       | Some text' =>
           match jsonrepair text' with
           | inl _ => emptyEnvelope
           | inr repaired =>
               match JSON_parse repaired with
               | inl _ => emptyEnvelope
               | inr parsed =>
                   if isArray (Some parsed) then wrapEvaluations parsed else parsed
               end
           end
       end).
Proof.
  unfold GenerateTests.extractJSON, GenerateTests.repairAndParse, try_catch, bind, ret.
  destruct (locate text) as [text'|]; [|reflexivity].
  destruct (jsonrepair text') as [e|repaired]; [reflexivity|].
  destruct (JSON_parse repaired) as [e|parsed]; [reflexivity|].
  now destruct (isArray (Some parsed)).
Qed.

Lemma locate_none (text : string) :
  locate text = None <-> indexOf text "["%char = -1 /\ indexOf text "{"%char = -1.
Proof.
  unfold locate. split.
  - destruct (indexOf text "["%char =? -1) eqn:H1; [|discriminate].
    destruct (indexOf text "{"%char =? -1) eqn:H2; [|discriminate].
    intros _. split; now apply Z.eqb_eq.
  - intros [-> ->]. reflexivity.
Qed.

(** C4. [extractJSON] is total and never throws: every input gives a value,
    and the value is the empty envelope when the text holds neither [[]
    nor [{], when the repair throws, and when the parse throws. *)
Theorem extractJSON_never_throws (text : string) :
  (exists v, extractJSON text = inr v) /\
  (indexOf text "["%char = -1 -> indexOf text "{"%char = -1 ->
   extractJSON text = inr emptyEnvelope) /\
  (forall text' e, locate text = Some text' -> jsonrepair text' = inl e ->
   extractJSON text = inr emptyEnvelope) /\
  (forall text' repaired e, locate text = Some text' ->
   jsonrepair text' = inr repaired -> JSON_parse repaired = inl e ->
   extractJSON text = inr emptyEnvelope).
Proof.
  rewrite extractJSON_cases. repeat split.
  - eexists. reflexivity.
  - intros H1 H2. now rewrite (proj2 (locate_none text) (conj H1 H2)).
  - intros text' e -> ->. reflexivity.
  - intros text' repaired e -> -> ->. reflexivity.
Qed.

Lemma normalizeEnvelope_shape (v : JSON) :
  exists env, normalizeEnvelope v = inr env /\ hasEvaluations env = true /\
              (hasEvaluations v = true -> env = v) /\
              (hasEvaluations v = false -> env = JObject [("evaluations", JArray [])]).
Proof.
  unfold normalizeEnvelope, getPropOpt, getProp, bind, ret.
  destruct v as [| b | n | s | items | fields];
    try (exists emptyEnvelope; repeat split; simpl; intros;
         first [reflexivity | congruence]).
  destruct (lookup "evaluations" fields) as [[| b | n | s | items | fs]|] eqn:Hl; simpl;
    repeat match goal with
           | |- context [if ?c then _ else _] => destruct c
           end;
    try (exists emptyEnvelope; repeat split; simpl; rewrite ?Hl; simpl; intros;
         first [reflexivity | congruence]).
  exists (JObject fields). simpl. rewrite Hl.
  repeat split; simpl; intros; first [reflexivity | congruence].
Qed.

(** C2, as the code has it. [extractJSON] always returns a value.  It is
    [{ evaluations: [] }] when no structure is found and when the repair or
    the parse throws; it is [{ evaluations: parsed }], the array wrapped as it
    is, when the parsed value is an array; and it is the parsed value itself
    when that is not an array.  The handler's guard then keeps a value that
    is an object with an [evaluations] array and replaces any other by
    [{ evaluations: [] }]. *)
Theorem extractJSON_envelope_or_parsed (text : string) :
  exists v, extractJSON text = inr v /\
    ((v = JObject [("evaluations", JArray [])] /\
      (locate text = None \/
       (exists text' e, locate text = Some text' /\ jsonrepair text' = inl e) \/
       (exists text' repaired e,
          locate text = Some text' /\ jsonrepair text' = inr repaired /\
          JSON_parse repaired = inl e))) \/
     (exists text' repaired items,
        locate text = Some text' /\ jsonrepair text' = inr repaired /\
        JSON_parse repaired = inr (JArray items) /\
        v = JObject [("evaluations", JArray items)]) \/
     (exists text' repaired,
        locate text = Some text' /\ jsonrepair text' = inr repaired /\
        JSON_parse repaired = inr v /\ isArray (Some v) = false)) /\
    exists env, normalizeEnvelope v = inr env /\ hasEvaluations env = true /\
                (hasEvaluations v = true -> env = v) /\
                (hasEvaluations v = false -> env = JObject [("evaluations", JArray [])]).
Proof.
  rewrite extractJSON_cases. eexists. split; [reflexivity|].
  split; [|apply normalizeEnvelope_shape].
  destruct (locate text) as [text'|]; [|left; split; [reflexivity|now left]].
  destruct (jsonrepair text') as [e|repaired] eqn:Hr.
  { left. split; [reflexivity|]. right. left. now exists text', e. }
  destruct (JSON_parse repaired) as [e|parsed] eqn:Hp.
  { left. split; [reflexivity|]. right. right. now exists text', repaired, e. }
  destruct (isArray (Some parsed)) eqn:Ha.
  - right. left. destruct parsed as [| b | n | s | items | fields]; try discriminate.
    now exists text', repaired, items.
  - right. right. now exists text', repaired.
Qed.

End Extractor.

Section Filter.

(** An entry the filter keeps is an object whose two fields are strings
    that are not blank, and [trimEvaluation] does not throw on it. *)
Lemma isValidEvaluation_true (x : JSON) :
  isValidEvaluation (Some x) = inr true ->
  exists s e,
    getProp (Some x) "scenario" = inr (Some (JString s)) /\
    getProp (Some x) "expectedOutput" = inr (Some (JString e)) /\
    jsLength (trim s) > 0 /\ jsLength (trim e) > 0 /\
    trimEvaluation x = inr {| scenario := trim s; expectedOutput := trim e |}.
Proof.
  unfold isValidEvaluation, trimEvaluation.
  destruct x as [| b | n | str | items | fields]; simpl;
    try discriminate;
    try (destruct b; discriminate);
    try (destruct (negb (n =? 0)); discriminate);
    try (destruct (negb (String.eqb str "")); discriminate).
  destruct (lookup "scenario" fields) as [[| b | n | s | items | fs]|]; simpl;
    try discriminate.
  destruct (jsLength (trim s) >? 0) eqn:Hs; simpl; [|discriminate].
  destruct (lookup "expectedOutput" fields) as [[| b | n | e | items | fs]|]; simpl;
    try discriminate.
  unfold ret. intros H. injection H as He.
  exists s, e. repeat split; try reflexivity; now apply Z.gtb_lt, Z.lt_gt in Hs, He.
Qed.

(** The predicate itself never throws. *)
Lemma isValidEvaluation_total (x : JSON) : exists b, isValidEvaluation (Some x) = inr b.
Proof.
  unfold isValidEvaluation.
  destruct x as [| b | n | str | items | fields]; simpl;
    try (eexists; reflexivity);
    try (destruct b; eexists; reflexivity);
    try (destruct (negb (n =? 0)); eexists; reflexivity);
    try (destruct (negb (String.eqb str "")); eexists; reflexivity).
  destruct (lookup "scenario" fields) as [[| b | n | s | items | fs]|]; simpl;
    try (eexists; reflexivity).
  destruct (jsLength (trim s) >? 0); simpl; [|eexists; reflexivity].
  destruct (lookup "expectedOutput" fields) as [[| b | n | e | items | fs]|]; simpl;
    eexists; reflexivity.
Qed.

Lemma survivor_cons (x : JSON) (candidates : list JSON) (out : Evaluation) :
  survivor candidates out -> survivor (x :: candidates) out.
Proof.
  intros (H1 & H2 & H3 & H4 & y & s & e & Hin & H).
  repeat split; try assumption. exists y, s, e. split; [now right|exact H].
Qed.

Lemma filterEvaluations_spec (candidates : list JSON) :
  exists validEvaluations,
    filterEvaluations candidates = inr validEvaluations /\
    Forall (survivor candidates) validEvaluations /\
    (List.length validEvaluations <= List.length candidates)%nat.
Proof.
  unfold filterEvaluations.
  induction candidates as [|x candidates (out & Hout & Hall & Hlen)].
  - exists []. simpl. repeat split; [constructor|lia].
  - simpl. unfold bind in *.
    destruct (isValidEvaluation_total x) as [keep Hkeep]. rewrite Hkeep.
    destruct (filterM (fun x => isValidEvaluation (Some x)) candidates) as [err|kept];
      [discriminate|].
    unfold ret. destruct keep.
    + destruct (isValidEvaluation_true x Hkeep) as (s & e & Hs & He & Hsl & Hel & Ht).
      simpl. unfold bind. rewrite Ht. rewrite Hout.
      eexists. split; [reflexivity|]. split; [|simpl; lia].
      constructor.
      * unfold survivor. simpl. rewrite !trim_idem. repeat split; try assumption.
        exists x, s, e. repeat split; try assumption. now left.
      * eapply Forall_impl; [|exact Hall]. intros a. apply survivor_cons.
    + exists out. split; [exact Hout|]. split; [|lia].
      eapply Forall_impl; [|exact Hall]. intros a. apply survivor_cons.
Qed.

(** C7. Whatever the candidates, the filter returns a list (it does not
    throw); every entry of it comes from a candidate whose [scenario] and
    [expectedOutput] are strings, holds their trimmed contents, which are not
    empty and are themselves trimmed; and the counts add up:
    [valid + filtered = total], with [total] the number of candidates. *)
Theorem filter_survivors_and_stats (candidates : list JSON) :
  exists validEvaluations,
    filterEvaluations candidates = inr validEvaluations /\
    Forall (survivor candidates) validEvaluations /\
    total (statsOf candidates validEvaluations) = Z.of_nat (List.length candidates) /\
    valid (statsOf candidates validEvaluations) = Z.of_nat (List.length validEvaluations) /\
    valid (statsOf candidates validEvaluations) +
      filtered (statsOf candidates validEvaluations) =
      total (statsOf candidates validEvaluations) /\
    0 <= filtered (statsOf candidates validEvaluations).
Proof.
  destruct (filterEvaluations_spec candidates) as (out & Hout & Hall & Hlen).
  exists out. unfold statsOf; simpl. repeat split; try assumption; lia.
Qed.

End Filter.

Section Handler.

Variable jsonrepair : string -> Exc string.
Variable JSON_parse : string -> Exc JSON.
Variable W : Type.
Variable Model : Type.
Variable validateGenerateTestsRequest : JSON -> Exc GenerateTestsRequest.
Variable NEXT_PUBLIC_ANTHROPIC_API_KEY : option string.
Variable Sonnet3_5 : string.
Variable createLangchainModel : string -> string -> Exc Model.
Variable chain_invoke : Model -> string -> JSON -> Eff W string.
Variable randomUUID : W -> string * W.

Local Abbreviation handle :=
  (handle jsonrepair JSON_parse W Model validateGenerateTestsRequest
     NEXT_PUBLIC_ANTHROPIC_API_KEY Sonnet3_5 createLangchainModel chain_invoke randomUUID).
Local Abbreviation POST :=
  (POST jsonrepair JSON_parse W Model validateGenerateTestsRequest
     NEXT_PUBLIC_ANTHROPIC_API_KEY Sonnet3_5 createLangchainModel chain_invoke randomUUID).
Local Abbreviation candidatesIn := (candidatesIn jsonrepair JSON_parse).

(** A successful run of the [try] block answers 200 with as many test cases
    as there are valid evaluations, and there is at least one. *)
Lemma handle_success (req : Request) (w w' : W) (r : Response) :
  handle req w = (inr r, w') ->
  exists testCases stats,
    r = {| status := 200; body := TestCases testCases stats |} /\ testCases <> [].
Proof.
  unfold GenerateTests.handle. intros H.
  apply bind_inr in H as (body & w1 & _ & H).
  apply bind_inr in H as (request & w2 & _ & H).
  destruct NEXT_PUBLIC_ANTHROPIC_API_KEY as [[|c apiKey]|]; try discriminate.
  apply bind_inr in H as (model & w3 & _ & H).
  apply bind_inr in H as (response & w4 & _ & H).
  apply bind_inr in H as (extracted & w5 & _ & H).
  apply bind_inr in H as (evaluations & w6 & _ & H).
  apply bind_inr in H as (candidates & w7 & _ & H).
  apply bind_inr in H as (validEvaluations & w8 & _ & H).
  destruct (Z.of_nat (List.length validEvaluations) =? 0) eqn:Hlen; [discriminate|].
  apply bind_inr in H as (testCases & w9 & Hmap & H).
  inversion H; subst. exists testCases, (statsOf candidates validEvaluations).
  split; [reflexivity|].
  apply mapM_length in Hmap. apply Z.eqb_neq in Hlen.
  intros ->. simpl in Hmap. rewrite <- Hmap in Hlen. now apply Hlen.
Qed.

(** C6. [POST] never answers with an empty [testCases] array; and when the
    run gets as far as the filter and no entry survives it, the answer is the
    error response with status 500 whose details read
    [No valid evaluations generated]. *)
Theorem POST_no_valid_evaluations (req : Request) (w : W) :
  emptyTestCases (fst (POST req w)) = false /\
  (forall body request apiKey model response w1 candidates,
     json req = inr body ->
     validateGenerateTestsRequest body = inr request ->
     NEXT_PUBLIC_ANTHROPIC_API_KEY = Some apiKey -> apiKey <> "" ->
     createLangchainModel Sonnet3_5 apiKey = inr model ->
     chain_invoke model (contextOf (agentDescription request)) (inputExample request) w
       = (inr response, w1) ->
     candidatesIn response = inr candidates ->
     filterEvaluations candidates = inr [] ->
     POST req w = (noValidEvaluations, w1)).
Proof.
  split.
  - unfold GenerateTests.POST.
    destruct (handle req w) as [[e|r] w'] eqn:H; [reflexivity|].
    apply handle_success in H as (testCases & stats & -> & Hne).
    unfold emptyTestCases. simpl. now destruct testCases.
  - intros body request apiKey model response w1 candidates
      Hbody Hreq Hkey Hne Hmodel Hrun Hcand Hnone.
    unfold GenerateTests.candidatesIn, bind in Hcand.
    destruct (extractJSON jsonrepair JSON_parse response) as [?|extracted] eqn:Hex;
      [discriminate|].
    destruct (normalizeEnvelope extracted) as [?|evaluations] eqn:Hnorm; [discriminate|].
    destruct apiKey as [|c apiKey]; [now elim Hne|].
    unfold GenerateTests.POST, GenerateTests.handle, Eff.bind, Eff.lift, Eff.throw.
    rewrite Hbody, Hreq, Hkey, Hmodel, Hrun, Hex, Hnorm, Hcand, Hnone.
    reflexivity.
Qed.

End Handler.

(** The spec's own scenario: prose, then an array of two entries of which the
    second is empty, gives one test case and [total = 2, valid = 1,
    filtered = 1]. *)
Example generateTests_scenario :
  fst (Doubles.generateTests ("prefix text " ++ Doubles.twoEntries)) =
  {| status := 200;
     body := TestCases [ {| id := "uuid-0"; caseScenario := "a"; caseExpectedOutput := "b" |} ]
               {| total := 2; valid := 1; filtered := 1 |} |}.
Proof. vm_compute. reflexivity. Qed.

(** C6 at a concrete run: the model answers with one entry whose scenario is
    blank and which has no expected output. *)
Lemma POST_no_valid_evaluations_witness :
  emptyTestCases (fst (Doubles.generateTests Doubles.blankEntry)) = false /\
  Doubles.generateTests Doubles.blankEntry =
    (noValidEvaluations, {| Doubles.reply := Doubles.blankEntry; Doubles.issued := 0 |}).
Proof.
  pose proof (POST_no_valid_evaluations Doubles.jsonrepair Doubles.JSON_parse
                Doubles.RouteWorld unit Doubles.validateGenerateTestsRequest
                (Some "key") "sonnet" Doubles.createLangchainModel Doubles.chain_invoke
                Doubles.randomUUID {| json := ret (JObject []) |}
                {| Doubles.reply := Doubles.blankEntry; Doubles.issued := 0 |})
    as [Hnever Hfail].
  split; [exact Hnever|].
  apply (Hfail (JObject [])
               {| inputExample := JObject []; agentDescription := None |}
               "key" tt Doubles.blankEntry
               {| Doubles.reply := Doubles.blankEntry; Doubles.issued := 0 |}
               [JObject [("scenario", JString " ")]]);
    try reflexivity.
  discriminate.
Defined.

(** C2 fails as stated: on the text [{"foo":1}], which is valid JSON and so
    left alone by the repair, [extractJSON] returns the parsed object, and it
    has no [evaluations] field. *)
Lemma extractJSON_returns_bare_object :
  extractJSON Doubles.jsonrepair Doubles.JSON_parse Doubles.fooObject
    = inr (JObject [("foo", JNumber 1)]) /\
  hasEvaluations (JObject [("foo", JNumber 1)]) = false.
Proof. split; vm_compute; reflexivity. Qed.

(** C4 on three texts: one without any structure, one the repair gives up
    on, and one that a repair which changes nothing leaves unparsable. *)
Lemma extractJSON_never_throws_witness :
  extractJSON Doubles.jsonrepair Doubles.JSON_parse "no structure here"
    = inr emptyEnvelope /\
  extractJSON Doubles.jsonrepair Doubles.JSON_parse "see [oops" = inr emptyEnvelope /\
  extractJSON (fun text => ret text) Doubles.JSON_parse "see [oops" = inr emptyEnvelope.
Proof.
  split; [|split].
  - destruct (extractJSON_never_throws Doubles.jsonrepair Doubles.JSON_parse
                "no structure here") as (_ & Hnone & _).
    apply Hnone; reflexivity.
  - destruct (extractJSON_never_throws Doubles.jsonrepair Doubles.JSON_parse
                "see [oops") as (_ & _ & Hrepair & _).
    apply (Hrepair "[oops" Doubles.syntaxError); reflexivity.
  - destruct (extractJSON_never_throws (fun text => ret text) Doubles.JSON_parse
                "see [oops") as (_ & _ & _ & Hparse).
    apply (Hparse "[oops" "[oops" Doubles.syntaxError); reflexivity.
Defined.

End GenerateTestsSpec.

(* ================================================================== *)
(** * Properties of the analyze-results route                          *)
(* ================================================================== *)

Module AnalyzeResultsSpec.
Import JS JSFacts AnalyzeResults.

Section Route.

Variable W : Type.
Variable Model : Type.
Variable validateAnalyzeResultsRequest : JSON -> Exc JSON.
Variable getLLMConfigForActiveModel : list (string * string) -> Exc (option LLMConfig).
Variable createLangchainModel : string -> string -> Exc Model.
Variable JSON_stringify : JSON -> string.
Variable chain_invoke : Model -> string -> Eff W JSON.

Local Abbreviation POST :=
  (POST W Model validateAnalyzeResultsRequest getLLMConfigForActiveModel
     createLangchainModel JSON_stringify chain_invoke).

(** C9, as the code has it. When the body of the request has been read and
    has passed validation, and the lookup in the headers finds no
    configuration, the route answers 400 with the message
    [Missing or invalid LLM configuration]; the world is left as it was and no
    model invocation has been made. *)
Theorem POST_missing_configuration (req : Request) (t : Trace W) (body results : JSON) :
  json req = inr body ->
  validateAnalyzeResultsRequest body = inr results ->
  getLLMConfigForActiveModel (headers req) = inr None ->
  POST req t = (missingConfiguration, t).
Proof.
  intros Hbody Hvalid Hconfig.
  unfold AnalyzeResults.POST, handle, Eff.bind, Eff.lift, Eff.ret.
  rewrite Hbody, Hvalid, Hconfig. reflexivity.
Qed.

End Route.

(** C9 at a concrete request: a body that parses, and no configuration. *)
Lemma POST_missing_configuration_witness :
  Doubles.analyzeResults (inr JNull) =
    (missingConfiguration, {| world := tt; invocations := [] |}).
Proof.
  apply (POST_missing_configuration unit unit (fun b => ret b) Doubles.noConfiguration
           Doubles.createLangchainModel (fun _ => "results") (fun _ _ w => (inr JNull, w))
           {| json := inr JNull; headers := [] |}
           {| world := tt; invocations := [] |} JNull JNull);
    reflexivity.
Defined.

(** C9 fails as stated: the configuration is missing and the body of the
    request does not parse; the answer is 500, not 400. *)
Lemma POST_missing_configuration_bad_body :
  Doubles.noConfiguration [] = inr None /\
  fst (Doubles.analyzeResults (inl Doubles.syntaxError)) =
    {| status := 500; body := Failure "Failed to analyze results" |}.
Proof. split; reflexivity. Qed.

End AnalyzeResultsSpec.

(* ================================================================== *)
(** * Properties of the QA agent                                       *)
(* ================================================================== *)

Module QaAgentSpec.
Import JS JSFacts QaAgent.

Local Open Scope list_scope.

Section Run.

Context {W : Type} `{Collaborators W}.

Variable config : QaAgentConfig.

Local Abbreviation Turn := (Turn config).
Local Abbreviation Paired := (Paired config).
Local Abbreviation Ends := (Ends config).

Lemma Paired_snoc chat calls msgs e u s :
  Paired chat calls msgs -> Turn chat e u s ->
  Paired chat (calls ++ [e]) (msgs ++ [u; s]).
Proof.
  induction 1 as [|e' calls u' s' msgs Ht Hp IH]; intros Hturn; simpl.
  - constructor; [exact Hturn|constructor].
  - constructor; [exact Ht|exact (IH Hturn)].
Qed.

Lemma Paired_length chat calls msgs :
  Paired chat calls msgs -> List.length msgs = (2 * List.length calls)%nat.
Proof. induction 1; simpl; lia. Qed.

Lemma Paired_roles chat calls msgs :
  Paired chat calls msgs -> map role msgs = alternating (List.length calls).
Proof.
  induction 1 as [|e calls u s msgs (Hu & Hs & _) Hp IH]; simpl; [reflexivity|].
  now rewrite Hu, Hs, IH.
Qed.

Lemma Paired_chat chat calls msgs :
  Paired chat calls msgs -> Forall (fun m => chatId m = chat) msgs.
Proof.
  induction 1 as [|e calls u s msgs (_ & _ & Hu & Hs & _) Hp IH]; constructor; auto.
Qed.

(** ** The primitive operations *)

Lemma inWorld_frame {A : Type} (c : Eff W A) a r a' :
  inWorld c a = (r, a') ->
  c (world a) = (r, world a') /\
  memory a' = memory a /\ exchanges a' = exchanges a /\ errors a' = errors a.
Proof.
  unfold inWorld. destruct (c (world a)) as [r0 w']. intros E. now inversion E.
Qed.

Lemma call_returns body a r a' :
  call config body a = (inr r, a') ->
  memory a' = memory a /\ errors a' = errors a /\
  exchanges a' = exchanges a ++ [{| request := body; response := r |}].
Proof.
  unfold call.
  destruct (callEndpoint (endpointUrl config) (headers config) body (world a))
    as [[e|r0] w']; intros E; inversion E; subst. now simpl.
Qed.

Lemma call_throws body a e w' :
  callEndpoint (endpointUrl config) (headers config) body (world a) = (inl e, w') ->
  call config body a =
    (inl e, {| world := w'; memory := memory a; exchanges := exchanges a;
               errors := errors a |}).
Proof. unfold call. now intros ->. Qed.

Ltac step E x a :=
  apply bind_inr in E as (x & a & ? & E).

Ltac frames :=
  repeat match goal with
         | E : Eff.lift _ _ = (inr _, _) |- _ => apply lift_inr in E as [? ?]; subst
         | E : inWorld _ _ = (_, _) |- _ => apply inWorld_frame in E as (? & ? & ? & ?)
         | E : uuid _ = (_, _) |- _ => apply inWorld_frame in E as (? & ? & ? & ?)
         | E : now _ = (_, _) |- _ => apply inWorld_frame in E as (? & ? & ? & ?)
         | E : invoke _ _ = (_, _) |- _ => apply inWorld_frame in E as (? & ? & ? & ?)
         | E : call _ _ _ = (inr _, _) |- _ => apply call_returns in E as (? & ? & ?)
         end.

(** ** The phases of a run that succeeds *)

Lemma planning_returns scenario expectedOutput a testMessage plan a' :
  planning scenario expectedOutput a = (inr (testMessage, plan), a') ->
  exists planResult,
    chain_invoke (planPrompt scenario expectedOutput) (world a) = (inr planResult, world a') /\
    extractTestMessage planResult = inr testMessage /\
    extractConversationPlan planResult = inr plan /\
    memory a' = memory a /\ exchanges a' = exchanges a.
Proof.
  unfold planning. intros E.
  step E planResult a1. step E msg a2. step E p a3.
  inversion E; subst. frames.
  exists planResult. repeat split; assumption.
Qed.

Lemma initialTurn_returns testMessage a formattedInput chat l a' :
  initialTurn config testMessage a = (inr (formattedInput, chat, l), a') ->
  exists e u s,
    transcript l = [u; s] /\
    exchanges a' = exchanges a ++ [e] /\ memory a' = memory a /\
    request e = formattedInput /\ content u = testMessage /\
    Turn chat e u s /\ Ends chat (apiResponse l) (lastResponse l) [e] [u; s].
Proof.
  unfold initialTurn. intros E.
  step E startTime a1. step E input a2. step E r a3. step E reply a4.
  step E endTime a5. step E c a6. step E id1 a7. step E id2 a8.
  inversion E; subst; clear E. frames.
  eexists {| request := formattedInput; response := r |}, _, _.
  split; [reflexivity|].
  split; [congruence|]. split; [congruence|].
  split; [reflexivity|]. split; [reflexivity|].
  match goal with
  | |- ?T /\ _ => assert (Hturn : T) by (repeat split; simpl; assumption)
  end.
  split; [exact Hturn|].
  exists [], {| request := formattedInput; response := r |}, []. do 2 eexists.
  split; [reflexivity|]. split; [reflexivity|]. split; [exact Hturn|].
  split; reflexivity.
Qed.

Lemma followUpCall_returns body a r reply a' :
  followUpCall config body a = (inr (r, reply), a') ->
  call config body a = (inr r, a') /\
  extractChatResponse r (rules (apiConfig config)) = inr reply.
Proof.
  unfold followUpCall, Eff.try_catch, Eff.bind, Eff.lift, Eff.ret, Eff.throw.
  destruct (call config body a) as [[e|r0] a1]; [discriminate|].
  destruct (extractChatResponse r0 (rules (apiConfig config))) as [e|reply0] eqn:Hx;
    [discriminate|].
  intros E. inversion E; subst. split; [reflexivity|exact Hx].
Qed.

Lemma followUpTurn_returns chat plannedTurn l a l' a' :
  followUpTurn config chat plannedTurn l a = (inr l', a') ->
  exists e u s,
    transcript l' = transcript l ++ [u; s] /\
    exchanges a' = exchanges a ++ [e] /\ memory a' = memory a /\
    Turn chat e u s /\
    response e = apiResponse l' /\ content s = lastResponse l'.
Proof.
  unfold followUpTurn, followUpRequest. intros E.
  step E req a1. destruct req as [[message startTime] body].
  match goal with
  | R : Eff.bind _ _ a = _ |- _ =>
      apply bind_inr in R as (result & b1 & ? & R);
      apply bind_inr in R as (msg & b2 & ? & R);
      apply bind_inr in R as (start & b3 & ? & R);
      apply bind_inr in R as (input & b4 & ? & R);
      inversion R; subst; clear R
  end.
  step E res a2. destruct res as [r reply].
  step E t1 a3. step E t2 a4. step E id1 a5. step E id2 a6.
  inversion E; subst; clear E.
  match goal with
  | C : followUpCall _ _ _ = _ |- _ => apply followUpCall_returns in C as [C ?]
  end.
  frames.
  eexists {| request := body; response := r |}, _, _.
  split; [reflexivity|].
  split; [congruence|]. split; [congruence|].
  split; [|split; reflexivity].
  repeat split; simpl; assumption.
Qed.

(** The loop keeps the transcript paired with the calls, and its locals at
    the last call. *)
Lemma followUpTurns_returns chat plan :
  forall l a l' a' calls,
    Paired chat calls (transcript l) ->
    Ends chat (apiResponse l) (lastResponse l) calls (transcript l) ->
    followUpTurns config chat plan l a = (inr l', a') ->
    exists calls' msgs',
      exchanges a' = exchanges a ++ calls' /\ memory a' = memory a /\
      List.length calls' = List.length plan /\
      transcript l' = transcript l ++ msgs' /\
      Paired chat (calls ++ calls') (transcript l') /\
      Ends chat (apiResponse l') (lastResponse l') (calls ++ calls') (transcript l').
Proof.
  induction plan as [|plannedTurn plan IH]; intros l a l' a' calls Hp He E; simpl in E.
  - inversion E; subst. exists [], []. rewrite !app_nil_r. now repeat split.
  - step E l1 a1.
    match goal with
    | T : followUpTurn _ _ _ _ _ = _ |- _ =>
        apply followUpTurn_returns in T as (e & u & s & Ht & Hx & Hm & Hturn & Hr & Hc)
    end.
    assert (Hp1 : Paired chat (calls ++ [e]) (transcript l1))
      by (rewrite Ht; now apply Paired_snoc).
    assert (He1 : Ends chat (apiResponse l1) (lastResponse l1) (calls ++ [e])
                    (transcript l1)).
    { rewrite Ht. exists calls, e, (transcript l), u, s.
      split; [reflexivity|]. split; [reflexivity|]. split; [exact Hturn|].
      split; assumption. }
    destruct (IH l1 a1 l' a' (calls ++ [e]) Hp1 He1 E)
      as (calls' & msgs' & Hx' & Hm' & Hlen & Ht' & Hp' & He').
    exists (e :: calls'), ([u; s] ++ msgs').
    rewrite <- app_assoc in Hp', He'. simpl in Hp', He'.
    repeat split; try assumption.
    + rewrite Hx', Hx, <- app_assoc. reflexivity.
    + congruence.
    + simpl. now rewrite Hlen.
    + rewrite Ht', Ht, <- app_assoc. reflexivity.
Qed.

Lemma multiTurn_turns chat plan l :
  multiTurn config chat plan l = followUpTurns config chat (turnsOf plan) l.
Proof.
  destruct plan as [[|t plan]|]; reflexivity.
Qed.

Lemma saveContext_returns input output (a : Agent W) u a' :
  saveContext input output a = (inr u, a') ->
  memory a' = memory a ++ [HumanMessage input; AIMessage output] /\
  exchanges a' = exchanges a.
Proof.
  unfold saveContext. destruct (String.eqb input ""); intros E; [discriminate|].
  now inversion E.
Qed.

Lemma conclude_returns scenario expectedOutput testMessage formattedInput l a r a' :
  conclude config scenario expectedOutput testMessage formattedInput l a = (inr r, a') ->
  exists valid met analysis,
    validateResponseFormat (apiResponse l) (outputFormat (apiConfig config)) = inr valid /\
    validateCondition (apiResponse l) (rules (apiConfig config)) = inr met /\
    r = {| conversation :=
             {| humanMessage := testMessage; rawInput := formattedInput;
                rawOutput := apiResponse l; chatResponse := lastResponse l;
                allMessages := transcript l |};
           validation :=
             {| passedTest := valid && met; formatValid := valid; conditionMet := met;
                explanation := analysis; totalTime := totalResponseTime l |} |} /\
    memory a' = memory a ++ [HumanMessage testMessage; AIMessage (lastResponse l)] /\
    exchanges a' = exchanges a.
Proof.
  unfold conclude. intros E.
  step E valid a1. step E met a2. step E analysis a3. step E u a4.
  inversion E; subst; clear E.
  match goal with
  | S : saveContext _ _ _ = _ |- _ => apply saveContext_returns in S as [? ?]
  end.
  frames. exists valid, met, analysis.
  split; [assumption|]. split; [assumption|]. split; [reflexivity|].
  split; congruence.
Qed.

(** The anatomy of a run that returns a result. *)
Lemma runTest_returns scenario expectedOutput a r a' :
  runTest config scenario expectedOutput a = (inr r, a') ->
  exists planResult w1 plan chat e0 calls u0 s0 msgs,
    chain_invoke (planPrompt scenario expectedOutput) (world a) = (inr planResult, w1) /\
    extractTestMessage planResult = inr (humanMessage (conversation r)) /\
    extractConversationPlan planResult = inr plan /\
    exchanges a' = exchanges a ++ e0 :: calls /\
    List.length calls = List.length (turnsOf plan) /\
    allMessages (conversation r) = u0 :: s0 :: msgs /\
    content u0 = humanMessage (conversation r) /\
    request e0 = rawInput (conversation r) /\
    Turn chat e0 u0 s0 /\
    Paired chat (e0 :: calls) (allMessages (conversation r)) /\
    Ends chat (rawOutput (conversation r)) (chatResponse (conversation r))
      (e0 :: calls) (allMessages (conversation r)) /\
    memory a' = memory a ++ [HumanMessage (humanMessage (conversation r));
                             AIMessage (chatResponse (conversation r))] /\
    validateResponseFormat (rawOutput (conversation r)) (outputFormat (apiConfig config))
      = inr (formatValid (validation r)) /\
    validateCondition (rawOutput (conversation r)) (rules (apiConfig config))
      = inr (conditionMet (validation r)) /\
    passedTest (validation r) = formatValid (validation r) && conditionMet (validation r).
Proof.
  unfold runTest, Eff.try_catch.
  destruct (runTestBody config scenario expectedOutput a) as [[e|r0] a0] eqn:E.
  { unfold Eff.bind, logError, Eff.throw. discriminate. }
  intros R. inversion R; subst; clear R.
  unfold runTestBody in E.
  step E p a1. destruct p as [testMessage plan].
  step E i a2. destruct i as [[formattedInput chat] l0].
  step E l a3. rewrite multiTurn_turns in *.
  match goal with
  | P : planning _ _ _ = _ |- _ =>
      apply planning_returns in P as (planResult & Hinvoke & Hmsg & Hplan & Hm1 & Hx1)
  end.
  match goal with
  | I : initialTurn _ _ _ = _ |- _ =>
      apply initialTurn_returns in I
        as (e0 & u0 & s0 & Ht0 & Hx2 & Hm2 & Hreq & Hu0 & Hturn & Hends)
  end.
  assert (Hp0 : Paired chat [e0] (transcript l0))
    by (rewrite Ht0; constructor; [exact Hturn|constructor]).
  rewrite <- Ht0 in Hends.
  match goal with
  | T : followUpTurns _ _ _ _ _ = _ |- _ =>
      apply (followUpTurns_returns chat (turnsOf plan) l0 a2 l a3 [e0] Hp0 Hends) in T
        as (calls & msgs & Hx3 & Hm3 & Hlen & Ht & Hp & He)
  end.
  apply conclude_returns in E
    as (valid & met & analysis & Hvalid & Hmet & -> & Hm4 & Hx4).
  simpl.
  exists planResult, (world a1), plan, chat, e0, calls, u0, s0, msgs.
  split; [exact Hinvoke|]. split; [exact Hmsg|]. split; [exact Hplan|].
  split; [rewrite Hx4, Hx3, Hx2, Hx1, <- app_assoc; reflexivity|].
  split; [exact Hlen|].
  split; [rewrite Ht, Ht0; reflexivity|].
  split; [exact Hu0|]. split; [exact Hreq|]. split; [exact Hturn|].
  split; [exact Hp|]. split; [exact He|].
  split; [rewrite Hm4, Hm3, Hm2, Hm1; reflexivity|].
  split; [exact Hvalid|]. split; [exact Hmet|]. reflexivity.
Qed.

(** ** A follow-up turn that fails *)

Lemma followUpRequest_frame plannedTurn l a x a' :
  followUpRequest config plannedTurn l a = (inr x, a') ->
  memory a' = memory a /\ exchanges a' = exchanges a /\ errors a' = errors a.
Proof.
  unfold followUpRequest. intros E.
  step E followUpResult a1. step E followUpMessage a2. step E startTime a3.
  step E followUpInput a4.
  inversion E; subst; clear E. frames. repeat split; congruence.
Qed.

Lemma followUpTurn_throws chat plannedTurn l a message startTime body a1 error w2 :
  followUpRequest config plannedTurn l a = (inr (message, startTime, body), a1) ->
  callEndpoint (endpointUrl config) (headers config) body (world a1) = (inl error, w2) ->
  followUpTurn config chat plannedTurn l a =
    (inl (rethrowTimeout error),
     {| world := w2; memory := memory a1; exchanges := exchanges a1;
        errors := errors a1 |}).
Proof.
  intros Hreq Hcall. unfold followUpTurn.
  rewrite (bind_step _ _ _ _ _ Hreq).
  apply bind_fail.
  unfold followUpCall, Eff.try_catch.
  rewrite (bind_fail _ _ _ _ _ (call_throws body a1 error w2 Hcall)).
  reflexivity.
Qed.

Lemma followUpTurns_throws chat pre :
  forall l a l1 a1 plannedTurn post e a2,
    followUpTurns config chat pre l a = (inr l1, a1) ->
    followUpTurn config chat plannedTurn l1 a1 = (inl e, a2) ->
    followUpTurns config chat (pre ++ plannedTurn :: post) l a = (inl e, a2).
Proof.
  induction pre as [|t pre IH]; intros l a l1 a1 plannedTurn post e a2 Hpre Hturn; simpl in *.
  - inversion Hpre; subst. now apply bind_fail.
  - apply bind_inr in Hpre as (l' & a' & Ht & Hpre).
    rewrite (bind_step _ _ _ _ _ Ht). eapply IH; eassumption.
Qed.

(** ** The claims *)

(** C1, as the code has it. After a run that returns, the memory has grown
    by one exchange: the first human test message, which is the content of
    the first transcript entry, and the chat response of the last turn that
    ran, which is the content of the last transcript entry; with no follow-up
    turn this is the first chat response.  [getHistory] then returns the
    memory, each message tagged with its role. *)
Theorem memory_first_message_last_response scenario expectedOutput a r a' :
  runTest config scenario expectedOutput a = (inr r, a') ->
  exists first rest front final,
    allMessages (conversation r) = first :: rest /\
    allMessages (conversation r) = front ++ [final] /\
    role first = user /\ role final = assistant /\
    content first = humanMessage (conversation r) /\
    content final = chatResponse (conversation r) /\
    getHistory a' =
      (inr (memory a ++ [HumanMessage (content first); AIMessage (content final)]), a').
Proof.
  intros E.
  apply runTest_returns in E
    as (planResult & w1 & plan & chat & e0 & calls & u0 & s0 & msgs & _ & _ & _ & _ & _ &
        Hall & Hu0 & _ & Hturn & _ & Hends & Hmem & _).
  destruct Hends as (calls0 & e & msgs0 & u & s & _ & Hlast & Hturn' & _ & Hs).
  exists u0, (s0 :: msgs), (msgs0 ++ [u]), s.
  split; [exact Hall|].
  split; [rewrite Hlast, <- app_assoc; reflexivity|].
  split; [apply Hturn|]. split; [apply Hturn'|].
  split; [exact Hu0|]. split; [exact Hs|].
  unfold getHistory. now rewrite Hmem, Hu0, Hs.
Qed.

(** C3. When the planning step yields a plan of [N] follow-up turns and the
    run returns, the transcript has [2 * (N + 1)] entries, their roles
    alternate from [user], one chat id is on all of them, and they follow the
    calls of the API under test turn by turn, in the order of the calls. *)
Theorem transcript_two_entries_per_turn scenario expectedOutput a r a' planResult w1 plan :
  chain_invoke (planPrompt scenario expectedOutput) (world a) = (inr planResult, w1) ->
  extractConversationPlan planResult = inr plan ->
  runTest config scenario expectedOutput a = (inr r, a') ->
  exists chat calls,
    List.length (allMessages (conversation r))
      = (2 * (List.length (turnsOf plan) + 1))%nat /\
    map role (allMessages (conversation r))
      = alternating (List.length (turnsOf plan) + 1) /\
    Forall (fun m => chatId m = chat) (allMessages (conversation r)) /\
    exchanges a' = exchanges a ++ calls /\
    Paired chat calls (allMessages (conversation r)).
Proof.
  intros Hinvoke Hplan E.
  apply runTest_returns in E
    as (planResult' & w1' & plan' & chat & e0 & calls & u0 & s0 & msgs & Hinvoke' & _ &
        Hplan' & Hx & Hlen & _ & _ & _ & _ & Hp & _).
  rewrite Hinvoke in Hinvoke'. inversion Hinvoke'; subst planResult' w1'.
  rewrite Hplan in Hplan'. inversion Hplan'; subst plan'.
  exists chat, (e0 :: calls).
  assert (Hn : List.length (e0 :: calls) = (List.length (turnsOf plan) + 1)%nat)
    by (simpl; lia).
  split; [rewrite (Paired_length _ _ _ Hp), Hn; reflexivity|].
  split; [rewrite (Paired_roles _ _ _ Hp), Hn; reflexivity|].
  split; [exact (Paired_chat _ _ _ Hp)|].
  split; [exact Hx|exact Hp].
Qed.

(** A follow-up turn in which the call of the API under test throws: what
    the run throws, in the terms of the [catch] clause. *)
Lemma followUp_failure_rethrown scenario expectedOutput a testMessage a1
    formattedInput chat l0 a2 pre plannedTurn post l a3 message startTime body a4
    error w5 :
  planning scenario expectedOutput a
    = (inr (testMessage, Some (pre ++ plannedTurn :: post)), a1) ->
  initialTurn config testMessage a1 = (inr (formattedInput, chat, l0), a2) ->
  followUpTurns config chat pre l0 a2 = (inr l, a3) ->
  followUpRequest config plannedTurn l a3 = (inr (message, startTime, body), a4) ->
  callEndpoint (endpointUrl config) (headers config) body (world a4) = (inl error, w5) ->
  runTest config scenario expectedOutput a =
    (inl (rethrowTimeout error),
     {| world := w5; memory := memory a4; exchanges := exchanges a4;
        errors := errors a4 ++ [rethrowTimeout error] |}) /\
  memory a4 = memory a.
Proof.
  intros Hplan Hinit Hpre Hreq Hcall. split.
  - pose proof (followUpTurn_throws chat plannedTurn l a3 message startTime body a4
                  error w5 Hreq Hcall) as Hturn.
    pose proof (followUpTurns_throws chat pre l0 a2 l a3 plannedTurn post _ _ Hpre Hturn)
      as Hloop.
    unfold runTest, Eff.try_catch, runTestBody.
    rewrite (bind_step _ _ _ _ _ Hplan). rewrite (bind_step _ _ _ _ _ Hinit).
    assert (Hmulti : multiTurn config chat (Some (pre ++ plannedTurn :: post)) l0 a2
                     = followUpTurns config chat (pre ++ plannedTurn :: post) l0 a2)
      by (rewrite multiTurn_turns; reflexivity).
    rewrite (bind_fail _ _ _ _ _ (eq_trans Hmulti Hloop)).
    reflexivity.
  - apply planning_returns in Hplan as (_ & _ & _ & _ & Hm1 & _).
    apply initialTurn_returns in Hinit
      as (e0 & u0 & s0 & Ht0 & _ & Hm2 & _ & _ & Hturn & Hends).
    assert (Hp0 : Paired chat [e0] (transcript l0))
      by (rewrite Ht0; constructor; [exact Hturn|constructor]).
    rewrite <- Ht0 in Hends.
    apply (followUpTurns_returns chat pre l0 a2 l a3 [e0] Hp0 Hends) in Hpre
      as (_ & _ & _ & Hm3 & _).
    apply followUpRequest_frame in Hreq as (Hm4 & _).
    congruence.
Qed.

(** C5. Take any follow-up turn of the plan, reached after the turns before
    it have run, and let the call of the API under test throw in that turn.
    When what it throws is an [Error] named [AbortError], the run throws a
    new [Error] with the message [API request timed out after 10 seconds].
    When it is anything else, an [Error] of another name or a value that is no
    [Error], the run throws that very value.  Either way no result is
    returned, what is thrown is logged, and the memory is as it was before the
    run. *)
Theorem followUp_failure_fails_run scenario expectedOutput a testMessage a1
    formattedInput chat l0 a2 pre plannedTurn post l a3 message startTime body a4
    error w5 :
  planning scenario expectedOutput a
    = (inr (testMessage, Some (pre ++ plannedTurn :: post)), a1) ->
  initialTurn config testMessage a1 = (inr (formattedInput, chat, l0), a2) ->
  followUpTurns config chat pre l0 a2 = (inr l, a3) ->
  followUpRequest config plannedTurn l a3 = (inr (message, startTime, body), a4) ->
  callEndpoint (endpointUrl config) (headers config) body (world a4) = (inl error, w5) ->
  (forall e, error = ThrownError e -> name e = "AbortError"%string ->
   runTest config scenario expectedOutput a =
     (inl (ThrownError {| name := "Error";
                          message := "API request timed out after 10 seconds" |}),
      {| world := w5; memory := memory a4; exchanges := exchanges a4;
         errors := errors a4 ++
                   [ThrownError {| name := "Error";
                                   message := "API request timed out after 10 seconds" |}]
      |})) /\
  ((forall e, error = ThrownError e -> name e <> "AbortError"%string) ->
   runTest config scenario expectedOutput a =
     (inl error,
      {| world := w5; memory := memory a4; exchanges := exchanges a4;
         errors := errors a4 ++ [error] |})) /\
  memory a4 = memory a.
Proof.
  intros Hplan Hinit Hpre Hreq Hcall.
  destruct (followUp_failure_rethrown _ _ _ _ _ _ _ _ _ _ _ _ _ _ _ _ _ _ _ _
              Hplan Hinit Hpre Hreq Hcall) as [Hrun Hmem].
  split; [|split; [|exact Hmem]].
  - intros e -> Hname. rewrite Hrun. unfold rethrowTimeout, isAbortError.
    rewrite Hname. reflexivity.
  - intros Hother. rewrite Hrun. unfold rethrowTimeout, isAbortError.
    destruct error as [e|v]; [|reflexivity].
    destruct (String.eqb (name e) "AbortError") eqn:Hname; [|reflexivity].
    apply String.eqb_eq in Hname. now elim (Hother e eq_refl).
Qed.

(** C8. In every result that [runTest] returns, [passedTest] is the
    conjunction of [formatValid] and [conditionMet]. *)
Theorem passedTest_is_conjunction scenario expectedOutput a r a' :
  runTest config scenario expectedOutput a = (inr r, a') ->
  passedTest (validation r) = formatValid (validation r) && conditionMet (validation r).
Proof.
  intros E.
  apply runTest_returns in E
    as (? & ? & ? & ? & ? & ? & ? & ? & ? & _ & _ & _ & _ & _ & _ & _ & _ & _ & _ & _ & _ &
        _ & _ & Hpassed).
  exact Hpassed.
Qed.

(** C10. In the record of a run that returns after at least one follow-up
    turn, [humanMessage] and [rawInput] belong to the first call of the API
    under test (the first test message and the request body formatted from
    it), while [rawOutput] and [chatResponse] belong to the last call (its raw
    response and the reply extracted from it), which is a later call. *)
Theorem record_first_inputs_last_outputs scenario expectedOutput a r a' planResult w1 plan :
  chain_invoke (planPrompt scenario expectedOutput) (world a) = (inr planResult, w1) ->
  extractConversationPlan planResult = inr plan ->
  (1 <= List.length (turnsOf plan))%nat ->
  runTest config scenario expectedOutput a = (inr r, a') ->
  exists first between final,
    exchanges a' = exchanges a ++ first :: between ++ [final] /\
    (List.length between + 1 = List.length (turnsOf plan))%nat /\
    extractTestMessage planResult = inr (humanMessage (conversation r)) /\
    formatInput (humanMessage (conversation r)) (inputFormat (apiConfig config))
      = inr (request first) /\
    rawInput (conversation r) = request first /\
    rawOutput (conversation r) = response final /\
    extractChatResponse (response final) (rules (apiConfig config))
      = inr (chatResponse (conversation r)).
Proof.
  intros Hinvoke Hplan Hn E.
  apply runTest_returns in E
    as (planResult' & w1' & plan' & chat & e0 & calls & u0 & s0 & msgs & Hinvoke' & Hmsg &
        Hplan' & Hx & Hlen & _ & Hu0 & Hreq & Hturn & _ & Hends & _).
  rewrite Hinvoke in Hinvoke'. inversion Hinvoke'; subst planResult' w1'.
  rewrite Hplan in Hplan'. inversion Hplan'; subst plan'.
  destruct Hends as (calls0 & e & msgs0 & u & s & Hcalls & _ & Hturn' & Hout & Hs).
  destruct calls0 as [|c calls0].
  { simpl in Hcalls. inversion Hcalls; subst. simpl in Hlen. lia. }
  simpl in Hcalls. inversion Hcalls; subst c calls.
  exists e0, calls0, e.
  split; [exact Hx|].
  split; [rewrite length_app in Hlen; simpl in Hlen; lia|].
  split; [exact Hmsg|].
  destruct Hturn as (_ & _ & _ & _ & Hformat & _).
  destruct Hturn' as (_ & _ & _ & _ & _ & Hextract).
  split; [rewrite <- Hu0; exact Hformat|].
  split; [now rewrite Hreq|].
  split; [now rewrite Hout|].
  now rewrite <- Hs.
Qed.

End Run.

(** ** The claims on scripted runs *)

(** C1 fails as stated: in a run with one follow-up turn, where the API
    answers [r1] to the initial turn and [r2] to the follow-up, the memory
    ends up with the first message and [r2]. *)
Lemma memory_gets_last_response :
  exists r a',
    Doubles.runTest Doubles.twoTurns = (inr r, a') /\
    map content (allMessages (conversation r)) = ["PLAN:hello"; "r1"; "and then?"; "r2"] /\
    getHistory a' = (inr [HumanMessage "PLAN:hello"; AIMessage "r2"], a').
Proof. do 2 eexists. split; [cbv; reflexivity|]. split; reflexivity. Qed.

(** C1, as the code has it, on the run with one follow-up turn. *)
Lemma memory_first_message_last_response_witness :
  exists r a',
    Doubles.runTest Doubles.twoTurns = (inr r, a') /\
    exists first rest front final,
      allMessages (conversation r) = first :: rest /\
      allMessages (conversation r) = front ++ [final] /\
      role first = user /\ role final = assistant /\
      content first = humanMessage (conversation r) /\
      content final = chatResponse (conversation r) /\
      getHistory a' =
        (inr (memory (Doubles.freshAgent Doubles.twoTurns) ++
              [HumanMessage (content first); AIMessage (content final)]), a').
Proof.
  do 2 eexists. split; [cbv; reflexivity|].
  eapply (memory_first_message_last_response (H := Doubles.scripted) Doubles.config
            "greets back" "a greeting" (Doubles.freshAgent Doubles.twoTurns)).
  vm_compute; reflexivity.
Defined.

(** C3 on the run with one follow-up turn: four entries. *)
Lemma transcript_two_entries_per_turn_witness :
  exists r a',
    Doubles.runTest Doubles.twoTurns = (inr r, a') /\
    exists chat calls,
      List.length (allMessages (conversation r)) = (2 * (1 + 1))%nat /\
      map role (allMessages (conversation r)) = alternating (1 + 1) /\
      Forall (fun m => chatId m = chat) (allMessages (conversation r)) /\
      exchanges a' = exchanges (Doubles.freshAgent Doubles.twoTurns) ++ calls /\
      Paired (H := Doubles.scripted) Doubles.config chat calls
        (allMessages (conversation r)).
Proof.
  do 2 eexists. split; [cbv; reflexivity|].
  eapply (transcript_two_entries_per_turn (H := Doubles.scripted) Doubles.config
            "greets back" "a greeting" (Doubles.freshAgent Doubles.twoTurns))
    with (planResult := "PLAN:hello") (plan := Some ["follow up"]).
  - cbv; reflexivity.
  - reflexivity.
  - vm_compute; reflexivity.
Defined.

(** C5 on two runs with one follow-up turn: in the first the follow-up call
    is aborted and the run throws the timeout error; in the second the call
    fails for another reason and the run throws what the call threw.  The
    memory stays empty in both. *)
Lemma followUp_failure_fails_run_witness :
  (exists (a4 : Agent Doubles.Script) (w5 : Doubles.Script),
     Doubles.runTest Doubles.timedOut =
       (inl (ThrownError {| name := "Error";
                            message := "API request timed out after 10 seconds" |}),
        {| world := w5; memory := memory a4; exchanges := exchanges a4;
           errors := errors a4 ++
                     [ThrownError {| name := "Error";
                                     message := "API request timed out after 10 seconds" |}]
        |}) /\
     memory a4 = memory (Doubles.freshAgent Doubles.timedOut)) /\
  (exists (a4 : Agent Doubles.Script) (w5 : Doubles.Script),
     MoreDoubles.runOn (Doubles.freshAgent MoreDoubles.networkDown) =
       (inl MoreDoubles.fetchFailed,
        {| world := w5; memory := memory a4; exchanges := exchanges a4;
           errors := errors a4 ++ [MoreDoubles.fetchFailed] |}) /\
     memory a4 = memory (Doubles.freshAgent MoreDoubles.networkDown)).
Proof.
  split.
  - assert (P : exists (a4 : Agent Doubles.Script) (w5 : Doubles.Script),
        (forall e, Doubles.abortError = ThrownError e -> name e = "AbortError"%string ->
         @runTest Doubles.Script Doubles.scripted Doubles.config "greets back" "a greeting"
           (Doubles.freshAgent Doubles.timedOut) =
           (inl (ThrownError {| name := "Error";
                                message := "API request timed out after 10 seconds" |}),
            {| world := w5; memory := memory a4; exchanges := exchanges a4;
               errors := errors a4 ++
                 [ThrownError {| name := "Error";
                                 message := "API request timed out after 10 seconds" |}]
            |})) /\
        ((forall e, Doubles.abortError = ThrownError e -> name e <> "AbortError"%string) ->
         @runTest Doubles.Script Doubles.scripted Doubles.config "greets back" "a greeting"
           (Doubles.freshAgent Doubles.timedOut) =
           (inl Doubles.abortError,
            {| world := w5; memory := memory a4; exchanges := exchanges a4;
               errors := errors a4 ++ [Doubles.abortError] |})) /\
        memory a4 = memory (Doubles.freshAgent Doubles.timedOut)).
    { do 2 eexists.
      eapply (followUp_failure_fails_run (H := Doubles.scripted) Doubles.config
                "greets back" "a greeting" (Doubles.freshAgent Doubles.timedOut))
        with (pre := []) (plannedTurn := "follow up"%string) (post := [])
             (error := Doubles.abortError);
        cbv; reflexivity. }
    destruct P as (a4 & w5 & Habort & _ & Hmem). exists a4, w5.
    split; [|exact Hmem].
    exact (Habort _ eq_refl eq_refl).
  - assert (P : exists (a4 : Agent Doubles.Script) (w5 : Doubles.Script),
        (forall e, MoreDoubles.fetchFailed = ThrownError e ->
         name e = "AbortError"%string ->
         @runTest Doubles.Script Doubles.scripted Doubles.config "greets back" "a greeting"
           (Doubles.freshAgent MoreDoubles.networkDown) =
           (inl (ThrownError {| name := "Error";
                                message := "API request timed out after 10 seconds" |}),
            {| world := w5; memory := memory a4; exchanges := exchanges a4;
               errors := errors a4 ++
                 [ThrownError {| name := "Error";
                                 message := "API request timed out after 10 seconds" |}]
            |})) /\
        ((forall e, MoreDoubles.fetchFailed = ThrownError e ->
          name e <> "AbortError"%string) ->
         @runTest Doubles.Script Doubles.scripted Doubles.config "greets back" "a greeting"
           (Doubles.freshAgent MoreDoubles.networkDown) =
           (inl MoreDoubles.fetchFailed,
            {| world := w5; memory := memory a4; exchanges := exchanges a4;
               errors := errors a4 ++ [MoreDoubles.fetchFailed] |})) /\
        memory a4 = memory (Doubles.freshAgent MoreDoubles.networkDown)).
    { do 2 eexists.
      eapply (followUp_failure_fails_run (H := Doubles.scripted) Doubles.config
                "greets back" "a greeting" (Doubles.freshAgent MoreDoubles.networkDown))
        with (pre := []) (plannedTurn := "follow up"%string) (post := [])
             (error := MoreDoubles.fetchFailed);
        cbv; reflexivity. }
    destruct P as (a4 & w5 & _ & Hother & Hmem). exists a4, w5.
    split; [|exact Hmem].
    apply Hother. intros e E. injection E as <-. discriminate.
Defined.

(** C8 on the run with one follow-up turn. *)
Lemma passedTest_is_conjunction_witness :
  exists r a',
    Doubles.runTest Doubles.twoTurns = (inr r, a') /\
    passedTest (validation r) = formatValid (validation r) && conditionMet (validation r).
Proof.
  do 2 eexists. split; [cbv; reflexivity|].
  eapply (passedTest_is_conjunction (H := Doubles.scripted) Doubles.config
            "greets back" "a greeting" (Doubles.freshAgent Doubles.twoTurns)).
  vm_compute; reflexivity.
Defined.

(** C10 on the run with one follow-up turn: two calls, the inputs of the
    first and the outputs of the second. *)
Lemma record_first_inputs_last_outputs_witness :
  exists r a',
    Doubles.runTest Doubles.twoTurns = (inr r, a') /\
    exists first between final,
      exchanges a' = exchanges (Doubles.freshAgent Doubles.twoTurns)
                       ++ first :: between ++ [final] /\
      (List.length between + 1 = 1)%nat /\
      Doubles.extractTestMessage "PLAN:hello" = inr (humanMessage (conversation r)) /\
      Doubles.formatInput (humanMessage (conversation r)) JNull = inr (request first) /\
      rawInput (conversation r) = request first /\
      rawOutput (conversation r) = response final /\
      Doubles.extractChatResponse (response final) JNull
        = inr (chatResponse (conversation r)).
Proof.
  do 2 eexists. split; [cbv; reflexivity|].
  eapply (record_first_inputs_last_outputs (H := Doubles.scripted) Doubles.config
            "greets back" "a greeting" (Doubles.freshAgent Doubles.twoTurns))
    with (planResult := "PLAN:hello") (plan := Some ["follow up"]).
  - cbv; reflexivity.
  - reflexivity.
  - simpl. lia.
  - vm_compute; reflexivity.
Defined.

End QaAgentSpec.

(* ================================================================== *)
(** * Further properties of the test-generation route                  *)
(* ================================================================== *)

Module GenerateTestsMore.
Import JS JSFacts GenerateTests GenerateTestsSpec Observations.

(** ** Where the extractor starts reading *)

Lemma indexOf_from_absent (s : string) (c : ascii) :
  forall i, 0 <= i -> (indexOf_from s c i = -1 <-> indexOf_from s c 0 = -1).
Proof.
  induction s as [|d s IH]; intros i Hi; simpl; [tauto|].
  destruct (Ascii.eqb d c).
  - split; intros E; lia.
  - rewrite (IH (i + 1)) by lia. rewrite (IH (0 + 1)) by lia. tauto.
Qed.

Lemma indexOf_from_found (s : string) (c : ascii) :
  forall i, 0 <= i -> indexOf_from s c i <> -1 ->
  exists prefix rest,
    s = prefix ++ String c rest /\ indexOf_from prefix c 0 = -1 /\
    indexOf_from s c i = i + Z.of_nat (String.length prefix).
Proof.
  induction s as [|d s IH]; intros i Hi Hfound; simpl in *; [congruence|].
  destruct (Ascii.eqb d c) eqn:Hd.
  - apply Ascii.eqb_eq in Hd. subst d. exists "", s. simpl. repeat split; lia.
  - destruct (IH (i + 1)) as (prefix & rest & Hs & Habsent & Hat); [lia|exact Hfound|].
    exists (String d prefix), rest. simpl. rewrite Hd.
    split; [now rewrite Hs|].
    split; [now apply (indexOf_from_absent prefix c (0 + 1))|].
    rewrite Hat. lia.
Qed.

Lemma drop_length_app (prefix t : string) : drop (String.length prefix) (prefix ++ t) = t.
Proof. induction prefix as [|d prefix IH]; simpl; [now destruct t|exact IH]. Qed.

Lemma length_append (s t : string) :
  String.length (s ++ t) = (String.length s + String.length t)%nat.
Proof. induction s as [|d s IH]; simpl; [reflexivity|now rewrite IH]. Qed.

Lemma slice_at_first (text : string) (c : ascii) :
  indexOf text c <> -1 ->
  exists prefix rest,
    text = prefix ++ String c rest /\ indexOf prefix c = -1 /\
    slice text (indexOf text c) = String c rest.
Proof.
  intros Hfound. unfold indexOf in *.
  destruct (indexOf_from_found text c 0 (Z.le_refl 0) Hfound)
    as (prefix & rest & Htext & Habsent & Hat).
  exists prefix, rest. split; [exact Htext|]. split; [exact Habsent|].
  unfold slice. rewrite Hat. simpl.
  destruct (Z.of_nat (String.length prefix) <? 0) eqn:Hneg; [apply Z.ltb_lt in Hneg; lia|].
  rewrite Z.min_l.
  - rewrite Nat2Z.id. rewrite Htext at 1. apply drop_length_app.
  - rewrite Htext, length_append. lia.
Qed.

Lemma indexOf_from_app_absent (p t : string) (c : ascii) :
  forall i, indexOf_from (p ++ t) c i = -1 -> indexOf_from p c i = -1.
Proof.
  induction p as [|d p IH]; intros i; simpl; [reflexivity|].
  destruct (Ascii.eqb d c); [trivial|apply IH].
Qed.

(** X1. What [extractJSON] goes on to repair is a suffix of the text: it
    starts at the first [[] when the text has one, even when a [{] comes
    before it, and at the first [{] only when the text has no [[]. *)
Theorem locate_suffix (text t : string) :
  locate text = Some t ->
  exists prefix rest,
    text = prefix ++ t /\ indexOf prefix "["%char = -1 /\
    (t = String "["%char rest \/
     (t = String "{"%char rest /\ indexOf text "["%char = -1 /\
      indexOf prefix "{"%char = -1)).
Proof.
  unfold locate.
  destruct (indexOf text "["%char =? -1) eqn:Hb.
  - apply Z.eqb_eq in Hb.
    destruct (indexOf text "{"%char =? -1) eqn:Hc; [discriminate|].
    apply Z.eqb_neq in Hc. intros E. injection E as <-.
    destruct (slice_at_first text "{"%char Hc) as (prefix & rest & Htext & Habsent & ->).
    exists prefix, rest. split; [exact Htext|]. split.
    + unfold indexOf in *. rewrite Htext in Hb.
      exact (indexOf_from_app_absent _ _ _ _ Hb).
    + right. now repeat split.
  - apply Z.eqb_neq in Hb. intros E. injection E as <-.
    destruct (slice_at_first text "["%char Hb) as (prefix & rest & Htext & Habsent & ->).
    exists prefix, rest. split; [exact Htext|]. split; [exact Habsent|]. now left.
Qed.

(** X1 on a text in which an object opens before the array does. *)
Lemma locate_suffix_witness :
  exists prefix rest,
    "{ evaluations: [1] }" = prefix ++ "[1] }" /\ indexOf prefix "["%char = -1 /\
    ("[1] }" = String "["%char rest \/
     ("[1] }" = String "{"%char rest /\ indexOf "{ evaluations: [1] }" "["%char = -1 /\
      indexOf prefix "{"%char = -1)).
Proof. apply (locate_suffix "{ evaluations: [1] }" "[1] }"). reflexivity. Defined.

(** ** From the model's text to the candidates *)

Section Candidates.

Variable jsonrepair : string -> Exc string.
Variable JSON_parse : string -> Exc JSON.

Lemma entries_of_value (v : JSON) :
  bind (normalizeEnvelope v) evaluationsOf = inr (entriesOf v).
Proof.
  unfold normalizeEnvelope, evaluationsOf, getPropOpt, getProp, bind, ret.
  destruct v as [| b | n | s | items | fields]; try reflexivity.
  simpl.
  destruct (lookup "evaluations" fields) as [[| b | n | s | items | fs]|] eqn:Hl;
    simpl; try reflexivity;
    repeat match goal with
           | |- context [if ?c then _ else _] => destruct c
           end;
    simpl; rewrite ?Hl; reflexivity.
Qed.

(** X2. Reading the candidates off the model's text never throws: whatever
    the text, the extractor returns a value, and the candidates are the array
    under its [evaluations] field, or none when it has no such array. *)
Theorem candidatesIn_never_throws (response : string) :
  exists extracted,
    extractJSON jsonrepair JSON_parse response = inr extracted /\
    candidatesIn jsonrepair JSON_parse response = inr (entriesOf extracted).
Proof.
  unfold candidatesIn. rewrite extractJSON_cases. eexists. split; [reflexivity|].
  unfold bind at 1. apply entries_of_value.
Qed.

End Candidates.

(** ** The filter *)

(** X3. [isValidEvaluation] never throws, and it accepts exactly the objects
    whose [scenario] and [expectedOutput] are strings with something in them
    besides white space: [null], arrays, strings and numbers are rejected. *)
Theorem isValidEvaluation_iff (x : JSON) :
  (exists b, isValidEvaluation (Some x) = inr b) /\
  (isValidEvaluation (Some x) = inr true <->
   exists fields s e,
     x = JObject fields /\
     lookup "scenario" fields = Some (JString s) /\
     lookup "expectedOutput" fields = Some (JString e) /\
     notBlank s /\ notBlank e).
Proof.
  split; [apply isValidEvaluation_total|]. split.
  - intros Hvalid.
    destruct (isValidEvaluation_true x Hvalid) as (s & e & Hs & He & Hsl & Hel & _).
    destruct x as [| b | n | str | items | fields]; simpl in Hs, He; try discriminate.
    exists fields, s, e. unfold ret in *. repeat split; congruence.
  - intros (fields & s & e & -> & Hs & He & Hsl & Hel).
    unfold isValidEvaluation, notBlank in *. simpl. rewrite Hs. simpl.
    apply Z.gt_lt, Z.gtb_lt in Hsl, Hel. rewrite Hsl. simpl. rewrite He. simpl.
    now rewrite Hel.
Qed.

Lemma filterEvaluations_cons (x : JSON) (candidates : list JSON) (out : list Evaluation) :
  filterEvaluations candidates = inr out ->
  (isValidEvaluation (Some x) = inr false /\ filterEvaluations (x :: candidates) = inr out) \/
  (exists e, isValidEvaluation (Some x) = inr true /\ trimEvaluation x = inr e /\
             filterEvaluations (x :: candidates) = inr (e :: out)).
Proof.
  unfold filterEvaluations. simpl. unfold bind.
  destruct (filterM (fun x => isValidEvaluation (Some x)) candidates) as [err|kept];
    [discriminate|].
  intros Hout.
  destruct (isValidEvaluation_total x) as [[|] Hkeep]; rewrite Hkeep; unfold ret; simpl.
  - right. destruct (isValidEvaluation_true x Hkeep) as (s & e & _ & _ & _ & _ & Ht).
    eexists. split; [reflexivity|]. split; [exact Ht|].
    unfold bind. now rewrite Ht, Hout.
  - left. now split.
Qed.

(** X4. The filter works entry by entry and keeps the order: filtering two
    lists one after the other gives the two outputs one after the other. *)
Theorem filterEvaluations_app (l1 l2 : list JSON) :
  exists o1 o2,
    filterEvaluations l1 = inr o1 /\ filterEvaluations l2 = inr o2 /\
    filterEvaluations (l1 ++ l2) = inr (o1 ++ o2)%list.
Proof.
  destruct (filterEvaluations_spec l2) as (o2 & H2 & _).
  induction l1 as [|x l1 (o1 & o2' & H1 & H2' & H12)].
  - exists [], o2. now repeat split.
  - rewrite H2 in H2'. injection H2' as <-.
    destruct (filterEvaluations_cons x l1 o1 H1) as [[Hx Hcons]|(e & Hx & Ht & Hcons)];
      destruct (filterEvaluations_cons x (l1 ++ l2)%list (o1 ++ o2)%list H12)
        as [[Hx' Happ]|(e' & Hx' & Ht' & Happ)];
      try congruence.
    + exists o1, o2. now repeat split.
    + exists (e :: o1), o2. rewrite Ht in Ht'. injection Ht' as <-. now repeat split.
Qed.

Lemma survivor_tidy (candidates : list JSON) (e : Evaluation) :
  survivor candidates e -> tidy (scenario e) (expectedOutput e).
Proof. intros (H1 & H2 & H3 & H4 & _). now repeat split. Qed.

Lemma tidy_passes (e : Evaluation) :
  tidy (scenario e) (expectedOutput e) ->
  isValidEvaluation (Some (evaluationValue e)) = inr true /\
  trimEvaluation (evaluationValue e) = inr e.
Proof.
  destruct e as [s eo]. unfold tidy. simpl. intros (Hs & He & Hts & Hte).
  apply Z.gt_lt, Z.gtb_lt in Hs, He.
  unfold isValidEvaluation, trimEvaluation, evaluationValue. simpl.
  rewrite Hs, He, Hts, Hte. now split.
Qed.

Lemma filterEvaluations_tidy (out : list Evaluation) :
  Forall (fun e => tidy (scenario e) (expectedOutput e)) out ->
  filterEvaluations (map evaluationValue out) = inr out.
Proof.
  induction 1 as [|e out He _ IH]; [reflexivity|].
  simpl. destruct (tidy_passes e He) as [Hvalid Htrim].
  destruct (filterEvaluations_cons (evaluationValue e) _ out IH)
    as [[Hx _]|(e' & _ & Ht & Hcons)]; [congruence|].
  rewrite Htrim in Ht. injection Ht as <-. exact Hcons.
Qed.

(** X5. The filter changes nothing the second time: the entries it returns,
    taken as the objects that the callback of [.map] builds, all pass it again
    and come out as they went in. *)
Theorem filterEvaluations_again (candidates : list JSON) (out : list Evaluation) :
  filterEvaluations candidates = inr out ->
  filterEvaluations (map evaluationValue out) = inr out.
Proof.
  intros Hout. destruct (filterEvaluations_spec candidates) as (out' & Hout' & Hall & _).
  rewrite Hout in Hout'. injection Hout' as <-.
  apply filterEvaluations_tidy.
  eapply Forall_impl; [|exact Hall]. intros e. apply survivor_tidy.
Qed.

(** X5 on the two entries of the spec's scenario, of which one survives. *)
Lemma filterEvaluations_again_witness :
  filterEvaluations
    (map evaluationValue [ {| scenario := "a"; expectedOutput := "b" |} ])
  = inr [ {| scenario := "a"; expectedOutput := "b" |} ].
Proof.
  apply (filterEvaluations_again
           [JObject [("scenario", JString " a "); ("expectedOutput", JString "b")];
            JObject []]).
  vm_compute. reflexivity.
Defined.

(** ** The handler *)

Section Handler.

Variable jsonrepair : string -> Exc string.
Variable JSON_parse : string -> Exc JSON.
Variable W : Type.
Variable Model : Type.
Variable validateGenerateTestsRequest : JSON -> Exc GenerateTestsRequest.
Variable NEXT_PUBLIC_ANTHROPIC_API_KEY : option string.
Variable Sonnet3_5 : string.
Variable createLangchainModel : string -> string -> Exc Model.
Variable chain_invoke : Model -> string -> JSON -> Eff W string.
Variable randomUUID : W -> string * W.

Local Abbreviation handle :=
  (handle jsonrepair JSON_parse W Model validateGenerateTestsRequest
     NEXT_PUBLIC_ANTHROPIC_API_KEY Sonnet3_5 createLangchainModel chain_invoke randomUUID).
Local Abbreviation POST :=
  (POST jsonrepair JSON_parse W Model validateGenerateTestsRequest
     NEXT_PUBLIC_ANTHROPIC_API_KEY Sonnet3_5 createLangchainModel chain_invoke randomUUID).

Lemma toTestCases_tidy (validEvaluations : list Evaluation) :
  forall w testCases w',
    Eff.mapM (toTestCase W randomUUID) validEvaluations w = (inr testCases, w') ->
    Forall (fun e => tidy (scenario e) (expectedOutput e)) validEvaluations ->
    Forall (fun tc => tidy (caseScenario tc) (caseExpectedOutput tc)) testCases.
Proof.
  induction validEvaluations as [|e l IH]; simpl; intros w testCases w' E Hall.
  - inversion E. constructor.
  - apply bind_inr in E as (tc & w1 & Htc & E).
    apply bind_inr in E as (rest & w2 & Hrest & E).
    inversion E; subst; clear E. inversion Hall; subst.
    constructor; [|eapply IH; eassumption].
    unfold toTestCase in Htc. apply bind_inr in Htc as (uuid & w3 & _ & Htc).
    inversion Htc; subst. assumption.
Qed.

(** X6. The route answers in one of two ways only.  Either 200 with a list of
    test cases that is not empty, whose texts are all trimmed and not blank,
    and with [valid] the number of test cases, [valid + filtered = total] and
    [filtered] not negative; or 500 with the error
    [Failed to generate evaluations]. *)
Theorem POST_answers (req : Request) (w : W) :
  (status (fst (POST req w)) = 200 /\
   exists testCases stats,
     body (fst (POST req w)) = TestCases testCases stats /\
     valid stats = Z.of_nat (List.length testCases) /\ 1 <= valid stats /\
     valid stats + filtered stats = total stats /\ 0 <= filtered stats /\
     Forall (fun tc => tidy (caseScenario tc) (caseExpectedOutput tc)) testCases) \/
  (status (fst (POST req w)) = 500 /\
   exists details,
     body (fst (POST req w)) = Failure "Failed to generate evaluations" details).
Proof.
  unfold GenerateTests.POST.
  destruct (handle req w) as [[e|r] w'] eqn:H.
  { right. split; [reflexivity|]. eexists. reflexivity. }
  left. unfold GenerateTests.handle in H.
  apply bind_inr in H as (body & w1 & _ & H).
  apply bind_inr in H as (request & w2 & _ & H).
  destruct NEXT_PUBLIC_ANTHROPIC_API_KEY as [[|c apiKey]|]; try discriminate.
  apply bind_inr in H as (model & w3 & _ & H).
  apply bind_inr in H as (response & w4 & _ & H).
  apply bind_inr in H as (extracted & w5 & _ & H).
  apply bind_inr in H as (evaluations & w6 & _ & H).
  apply bind_inr in H as (candidates & w7 & _ & H).
  apply bind_inr in H as (validEvaluations & w8 & Hfilter & H).
  apply lift_inr in Hfilter as [Hfilter _].
  destruct (Z.of_nat (List.length validEvaluations) =? 0) eqn:Hlen; [discriminate|].
  apply bind_inr in H as (testCases & w9 & Hmap & H).
  inversion H; subst; clear H. simpl. split; [reflexivity|].
  exists testCases, (statsOf candidates validEvaluations).
  split; [reflexivity|].
  destruct (filterEvaluations_spec candidates) as (out & Hout & Hall & Hle).
  rewrite Hfilter in Hout. injection Hout as <-.
  pose proof (mapM_length _ _ _ _ _ Hmap) as Hsame.
  apply Z.eqb_neq in Hlen. unfold statsOf. simpl.
  split; [now rewrite Hsame|]. split; [lia|]. split; [lia|]. split; [lia|].
  eapply toTestCases_tidy; [exact Hmap|].
  eapply Forall_impl; [|exact Hall]. intros e. apply survivor_tidy.
Qed.

(** X7. Without the API key, unset or empty, a request that passes
    validation is answered 500 with the details [API key not configured], and
    the model is not reached. *)
Theorem POST_without_key (req : Request) (w : W) (body : JSON)
    (request : GenerateTestsRequest) :
  json req = inr body ->
  validateGenerateTestsRequest body = inr request ->
  NEXT_PUBLIC_ANTHROPIC_API_KEY = None \/ NEXT_PUBLIC_ANTHROPIC_API_KEY = Some "" ->
  POST req w =
    ({| status := 500;
        body := Failure "Failed to generate evaluations" "API key not configured" |}, w).
Proof.
  intros Hbody Hreq Hkey.
  unfold GenerateTests.POST, GenerateTests.handle, Eff.bind, Eff.lift, Eff.throw.
  rewrite Hbody, Hreq. destruct Hkey as [-> | ->]; reflexivity.
Qed.

(** X8. A request whose body cannot be read, or does not pass validation, is
    answered 500 before anything else is looked at: the details are the
    message of what was thrown when it is an [Error], and [Unknown error]
    otherwise. *)
Theorem POST_rejected_request (req : Request) (w : W) (error : Thrown) :
  json req = inl error \/
  (exists body, json req = inr body /\ validateGenerateTestsRequest body = inl error) ->
  POST req w =
    ({| status := 500;
        body := Failure "Failed to generate evaluations"
                  (match error with
                   | ThrownError e => message e
                   | ThrownValue _ => "Unknown error"
                   end) |}, w).
Proof.
  intros [Hbody | (body & Hbody & Hreq)];
    unfold GenerateTests.POST, GenerateTests.handle, Eff.bind, Eff.lift, Eff.throw;
    rewrite Hbody; [|rewrite Hreq]; reflexivity.
Qed.

End Handler.

(** X7 on a deployment without the key. *)
Lemma POST_without_key_witness :
  MoreDoubles.generateTestsWithoutKey (inr JNull) =
    ({| status := 500;
        body := Failure "Failed to generate evaluations" "API key not configured" |},
     {| Doubles.reply := Doubles.twoEntries; Doubles.issued := 0 |}).
Proof.
  apply (POST_without_key Doubles.jsonrepair Doubles.JSON_parse Doubles.RouteWorld unit
           Doubles.validateGenerateTestsRequest None "sonnet"
           Doubles.createLangchainModel Doubles.chain_invoke Doubles.randomUUID
           {| json := inr JNull |} _ JNull
           {| inputExample := JNull; agentDescription := None |}).
  - reflexivity.
  - reflexivity.
  - left. reflexivity.
Defined.

(** X8 on a body that throws a value that is no [Error]. *)
Lemma POST_rejected_request_witness :
  MoreDoubles.generateTestsWithoutKey (inl (ThrownValue (JString "boom"))) =
    ({| status := 500;
        body := Failure "Failed to generate evaluations" "Unknown error" |},
     {| Doubles.reply := Doubles.twoEntries; Doubles.issued := 0 |}).
Proof.
  apply (POST_rejected_request Doubles.jsonrepair Doubles.JSON_parse Doubles.RouteWorld
           unit Doubles.validateGenerateTestsRequest None "sonnet"
           Doubles.createLangchainModel Doubles.chain_invoke Doubles.randomUUID
           {| json := inl (ThrownValue (JString "boom")) |} _
           (ThrownValue (JString "boom"))).
  left. reflexivity.
Defined.

End GenerateTestsMore.

(* ================================================================== *)
(** * Further properties of the analyze-results route                  *)
(* ================================================================== *)

Module AnalyzeResultsMore.
Import JS JSFacts AnalyzeResults.

Local Open Scope list_scope.

Section Route.

Variable W : Type.
Variable Model : Type.
Variable validateAnalyzeResultsRequest : JSON -> Exc JSON.
Variable getLLMConfigForActiveModel : list (string * string) -> Exc (option LLMConfig).
Variable createLangchainModel : string -> string -> Exc Model.
Variable JSON_stringify : JSON -> string.
Variable chain_invoke : Model -> string -> Eff W JSON.

Local Abbreviation POST :=
  (POST W Model validateAnalyzeResultsRequest getLLMConfigForActiveModel
     createLangchainModel JSON_stringify chain_invoke).


(** X10. A 400 means what it says: the route answers 400 only for a request
    whose body was read and passed validation and for which the lookup in the
    headers found no configuration. *)
Theorem POST_400_only_without_configuration (req : Request) (t : Trace W) :
  status (fst (POST req t)) = 400 ->
  exists body results,
    json req = inr body /\ validateAnalyzeResultsRequest body = inr results /\
    getLLMConfigForActiveModel (headers req) = inr None.
Proof.
  unfold AnalyzeResults.POST, handle, invoke, Eff.bind, Eff.lift, Eff.ret.
  destruct (json req) as [e|body] eqn:Hbody; [simpl; discriminate|].
  destruct (validateAnalyzeResultsRequest body) as [e|results] eqn:Hvalid;
    [simpl; discriminate|].
  destruct (getLLMConfigForActiveModel (headers req)) as [e|[config|]];
    [simpl; discriminate| |intros _; now exists body, results].
  destruct (createLangchainModel (model config) (apiKey config)) as [e|m];
    [simpl; discriminate|].
  destruct (chain_invoke m (JSON_stringify results) (world t)) as [[e|analysis] w'];
    simpl; discriminate.
Qed.

End Route.

(** X10 on a request that is answered 400. *)
Lemma POST_400_only_without_configuration_witness :
  exists body results,
    @inr Thrown JSON JNull = inr body /\ @ret JSON body = inr results /\
    Doubles.noConfiguration [] = inr None.
Proof.
  apply (POST_400_only_without_configuration unit unit (fun b => ret b)
           Doubles.noConfiguration Doubles.createLangchainModel (fun _ => "results")
           (fun _ _ w => (inr JNull, w))
           {| json := inr JNull; headers := [] |}
           {| world := tt; invocations := [] |}).
  reflexivity.
Defined.

End AnalyzeResultsMore.

(* ================================================================== *)
(** * Further properties of the QA agent                               *)
(* ================================================================== *)

Module QaAgentMore.
Import JS JSFacts QaAgent QaAgentSpec Observations.

Local Open Scope list_scope.

Lemma bind_inl {W A B : Type} (c : Eff W A) (k : A -> Eff W B) w e w' :
  Eff.bind c k w = (inl e, w') ->
  c w = (inl e, w') \/ exists a w1, c w = (inr a, w1) /\ k a w1 = (inl e, w').
Proof.
  unfold Eff.bind. destruct (c w) as [[e0|a] w1]; intros E.
  - left. inversion E; subst. reflexivity.
  - right. now exists a, w1.
Qed.

Section Run.

Context {W : Type} `{Collaborators W}.

Variable config : QaAgentConfig.

(** ** Steps that leave the memory and the error log alone *)

Lemma Quiet_ret {A : Type} (x : A) : Quiet (W := W) (Eff.ret x).
Proof. intros a r a' E. inversion E. now split. Qed.

Lemma Quiet_throw {A : Type} (e : Thrown) : Quiet (W := W) (A := A) (Eff.throw e).
Proof. intros a r a' E. inversion E. now split. Qed.

Lemma Quiet_lift {A : Type} (c : Exc A) : Quiet (W := W) (Eff.lift c).
Proof. intros a r a' E. inversion E. now split. Qed.

Lemma Quiet_inWorld {A : Type} (c : Eff W A) : Quiet (inWorld c).
Proof. intros a r a' E. apply inWorld_frame in E as (_ & Hm & _ & He). now split. Qed.

Lemma Quiet_call (body : JSON) : Quiet (call config body).
Proof.
  intros a r a'. unfold call.
  destruct (callEndpoint (endpointUrl config) (headers config) body (world a))
    as [[e|r0] w']; intros E; inversion E; now split.
Qed.

Lemma Quiet_bind {A B : Type} (c : Eff (Agent W) A) (k : A -> Eff (Agent W) B) :
  Quiet c -> (forall x, Quiet (k x)) -> Quiet (Eff.bind c k).
Proof.
  intros Hc Hk a r a'. unfold Eff.bind.
  destruct (c a) as [[e|x] a1] eqn:E1; intros E.
  - inversion E; subst. exact (Hc _ _ _ E1).
  - destruct (Hc _ _ _ E1) as [Hm1 He1]. destruct (Hk x _ _ _ E) as [Hm2 He2].
    split; congruence.
Qed.

Lemma Quiet_try_catch {A : Type} (body : Eff (Agent W) A)
    (handler : Thrown -> Eff (Agent W) A) :
  Quiet body -> (forall e, Quiet (handler e)) -> Quiet (Eff.try_catch body handler).
Proof.
  intros Hb Hh a r a'. unfold Eff.try_catch.
  destruct (body a) as [[e|x] a1] eqn:E1; intros E.
  - destruct (Hb _ _ _ E1) as [Hm1 He1]. destruct (Hh e _ _ _ E) as [Hm2 He2].
    split; congruence.
  - inversion E; subst. exact (Hb _ _ _ E1).
Qed.

Ltac quiet :=
  repeat first
    [ apply Quiet_ret | apply Quiet_throw | apply Quiet_lift | apply Quiet_inWorld
    | apply Quiet_call
    | apply Quiet_bind; [|intros ?]
    | apply Quiet_try_catch; [|intros ?] ].

Lemma Quiet_planning scenario expectedOutput : Quiet (planning scenario expectedOutput).
Proof. unfold planning, invoke. quiet. Qed.

Lemma Quiet_initialTurn testMessage : Quiet (initialTurn config testMessage).
Proof. unfold initialTurn, now, uuid. quiet. Qed.

Lemma Quiet_followUpTurn chat plannedTurn l : Quiet (followUpTurn config chat plannedTurn l).
Proof.
  unfold followUpTurn, followUpRequest, followUpCall, invoke, now, uuid.
  apply Quiet_bind; [quiet|]. intros [[message startTime] body].
  apply Quiet_bind; [quiet|]. intros [apiResponse chatResponse]. quiet.
Qed.

Lemma Quiet_followUpTurns chat plan : forall l, Quiet (followUpTurns config chat plan l).
Proof.
  induction plan as [|plannedTurn plan IH]; intros l; simpl.
  - apply Quiet_ret.
  - apply Quiet_bind; [apply Quiet_followUpTurn|]. intros l'. apply IH.
Qed.

Lemma Quiet_multiTurn chat plan l : Quiet (multiTurn config chat plan l).
Proof. rewrite multiTurn_turns. apply Quiet_followUpTurns. Qed.

Lemma conclude_throws scenario expectedOutput testMessage formattedInput l a e a' :
  conclude config scenario expectedOutput testMessage formattedInput l a = (inl e, a') ->
  memory a' = memory a /\ errors a' = errors a.
Proof.
  unfold conclude. intros E.
  apply bind_inl in E as [E|(valid & a1 & E1 & E)];
    [exact (Quiet_lift _ _ _ _ E)|].
  destruct (Quiet_lift _ _ _ _ E1) as [Hm1 He1].
  apply bind_inl in E as [E|(met & a2 & E2 & E)];
    [destruct (Quiet_lift _ _ _ _ E); split; congruence|].
  destruct (Quiet_lift _ _ _ _ E2) as [Hm2 He2].
  apply bind_inl in E as [E|(analysis & a3 & E3 & E)];
    [destruct (Quiet_inWorld _ _ _ _ E); split; congruence|].
  destruct (Quiet_inWorld _ _ _ _ E3) as [Hm3 He3].
  apply bind_inl in E as [E|(u & a4 & E4 & E)]; [|discriminate].
  unfold saveContext in E. destruct (String.eqb testMessage ""); [|discriminate].
  inversion E; subst. split; congruence.
Qed.

Lemma runTestBody_throws scenario expectedOutput a e a' :
  runTestBody config scenario expectedOutput a = (inl e, a') ->
  memory a' = memory a /\ errors a' = errors a.
Proof.
  unfold runTestBody. intros E.
  apply bind_inl in E as [E|([testMessage plan] & a1 & E1 & E)];
    [exact (Quiet_planning _ _ _ _ _ E)|].
  destruct (Quiet_planning _ _ _ _ _ E1) as [Hm1 He1].
  apply bind_inl in E as [E|([[formattedInput chat] l0] & a2 & E2 & E)];
    [destruct (Quiet_initialTurn _ _ _ _ E); split; congruence|].
  destruct (Quiet_initialTurn _ _ _ _ E2) as [Hm2 He2].
  apply bind_inl in E as [E|(l & a3 & E3 & E)];
    [destruct (Quiet_multiTurn _ _ _ _ _ _ E); split; congruence|].
  destruct (Quiet_multiTurn _ _ _ _ _ _ E3) as [Hm3 He3].
  apply conclude_throws in E as [Hm4 He4]. split; congruence.
Qed.

(** X11. A run that throws leaves the memory as it was, whatever the step
    that failed, the writing of the memory included, which rejects an empty
    opening message before it writes; and the run logs what it throws, once,
    before throwing it. *)
Theorem runTest_failure_keeps_memory scenario expectedOutput a error a' :
  runTest config scenario expectedOutput a = (inl error, a') ->
  memory a' = memory a /\ errors a' = errors a ++ [error].
Proof.
  unfold runTest, Eff.try_catch.
  destruct (runTestBody config scenario expectedOutput a) as [[e|r] a0] eqn:E;
    [|discriminate].
  apply runTestBody_throws in E as [Hm He].
  unfold Eff.bind, logError, Eff.throw. intros R. inversion R; subst; simpl.
  split; congruence.
Qed.

(** X12. When the planning call of the model throws, the run throws the
    same value at once: the API under test is not called. *)
Theorem planning_failure_stops_run scenario expectedOutput a error w1 :
  chain_invoke (planPrompt scenario expectedOutput) (world a) = (inl error, w1) ->
  runTest config scenario expectedOutput a =
    (inl error,
     {| world := w1; memory := memory a; exchanges := exchanges a;
        errors := errors a ++ [error] |}).
Proof.
  intros Hplan.
  unfold runTest, runTestBody, planning, invoke, inWorld, Eff.try_catch, Eff.bind,
    logError, Eff.throw.
  rewrite Hplan. reflexivity.
Qed.

(** X13. In the initial turn nothing is converted: when the first call of
    the API under test throws, the run throws that very value, also when it
    is an [Error] named [AbortError]. *)
Theorem initial_failure_is_not_converted scenario expectedOutput a planResult w1
    testMessage plan startTime w2 body error w3 :
  chain_invoke (planPrompt scenario expectedOutput) (world a) = (inr planResult, w1) ->
  extractTestMessage planResult = inr testMessage ->
  extractConversationPlan planResult = inr plan ->
  Date_now w1 = (startTime, w2) ->
  formatInput testMessage (inputFormat (apiConfig config)) = inr body ->
  callEndpoint (endpointUrl config) (headers config) body w2 = (inl error, w3) ->
  runTest config scenario expectedOutput a =
    (inl error,
     {| world := w3; memory := memory a; exchanges := exchanges a;
        errors := errors a ++ [error] |}).
Proof.
  intros Hplan Hmsg Hturns Hnow Hformat Hcall.
  unfold runTest, runTestBody, planning, initialTurn, invoke, now, call, inWorld,
    Eff.try_catch, Eff.bind, Eff.lift, Eff.perform, Eff.ret, logError, Eff.throw.
  rewrite Hplan. simpl. rewrite Hmsg, Hturns. simpl. rewrite Hnow. simpl.
  rewrite Hformat. simpl. rewrite Hcall. reflexivity.
Qed.

(** X14. The two verdicts of a result are the validators' verdicts on the
    raw response of the last call of the API under test, and of no other. *)
Theorem verdicts_on_last_response scenario expectedOutput a r a' :
  runTest config scenario expectedOutput a = (inr r, a') ->
  exists earlier final,
    exchanges a' = exchanges a ++ earlier ++ [final] /\
    validateResponseFormat (response final) (outputFormat (apiConfig config))
      = inr (formatValid (validation r)) /\
    validateCondition (response final) (rules (apiConfig config))
      = inr (conditionMet (validation r)).
Proof.
  intros E.
  apply runTest_returns in E
    as (planResult & w1 & plan & chat & e0 & calls & u0 & s0 & msgs & _ & _ & _ & Hx & _ &
        _ & _ & _ & _ & _ & Hends & _ & Hvalid & Hmet & _).
  destruct Hends as (calls0 & e & msgs0 & u & s & Hcalls & _ & _ & Hout & _).
  exists calls0, e. rewrite Hout. rewrite <- Hcalls. now repeat split.
Qed.

(** ** Response times *)

Lemma Timed_app (l1 l2 : list TestMessage) : Timed l1 -> Timed l2 -> Timed (l1 ++ l2).
Proof.
  induction 1 as [|u s rest Hu Hs Heq Hrest IH]; simpl; [trivial|].
  intros Hl2. constructor; auto.
Qed.

Lemma Timed_turnTimes_app (l1 l2 : list TestMessage) :
  turnTimes (l1 ++ l2) = turnTimes l1 + turnTimes l2.
Proof.
  induction l1 as [|m l1 IH]; simpl; [reflexivity|].
  destruct (role m); rewrite IH; lia.
Qed.

Lemma Timed_length (l : list TestMessage) : Timed l -> Nat.Even (List.length l).
Proof.
  induction 1 as [|u s rest _ _ _ _ [k Hk]]; [now exists 0%nat|].
  exists (S k). simpl. lia.
Qed.

Ltac step E x a :=
  apply bind_inr in E as (x & a & ? & E).

Ltac frames :=
  repeat match goal with
         | E : Eff.lift _ _ = (inr _, _) |- _ => apply lift_inr in E as [? ?]; subst
         | E : inWorld _ _ = (_, _) |- _ => apply inWorld_frame in E as (? & ? & ? & ?)
         | E : uuid _ = (_, _) |- _ => apply inWorld_frame in E as (? & ? & ? & ?)
         | E : now _ = (_, _) |- _ => apply inWorld_frame in E as (? & ? & ? & ?)
         | E : invoke _ _ = (_, _) |- _ => apply inWorld_frame in E as (? & ? & ? & ?)
         end.

Lemma initialTurn_times testMessage a formattedInput chat l a' :
  initialTurn config testMessage a = (inr (formattedInput, chat, l), a') ->
  Timed (transcript l) /\ turnTimes (transcript l) = totalResponseTime l.
Proof.
  unfold initialTurn. intros E.
  step E startTime a1. step E input a2. step E r a3. step E reply a4.
  step E endTime a5. step E c a6. step E id1 a7. step E id2 a8.
  inversion E; subst; clear E. simpl. split; [|lia].
  constructor; try reflexivity. constructor.
Qed.

Lemma consecutive_readings (a1 a2 a3 : Agent W) (t1 t2 : Z) :
  steady Date_now ->
  Eff.perform Date_now (world a1) = (inr t1, world a2) ->
  Eff.perform Date_now (world a2) = (inr t2, world a3) ->
  t1 <= t2.
Proof.
  unfold steady, Eff.perform. intros Hsteady E1 E2.
  specialize (Hsteady (world a1)).
  destruct (Date_now (world a1)) as [t w] eqn:D1. simpl in Hsteady.
  injection E1 as Ht Hw. rewrite Hw in Hsteady.
  destruct (Date_now (world a2)) as [t' w'] eqn:D2. simpl in Hsteady.
  injection E2 as Ht' Hw'. lia.
Qed.

Lemma followUpTurn_times chat plannedTurn l a l' a' :
  followUpTurn config chat plannedTurn l a = (inr l', a') ->
  exists extra elapsed,
    transcript l' = transcript l ++ extra /\ Timed extra /\
    List.length extra = 2%nat /\
    totalResponseTime l' = totalResponseTime l + elapsed /\
    (steady Date_now -> turnTimes extra <= elapsed).
Proof.
  unfold followUpTurn. intros E.
  step E req a1. destruct req as [[message startTime] body].
  step E res a2. destruct res as [r reply].
  step E t1 a3. step E t2 a4. step E id1 a5. step E id2 a6.
  inversion E; subst; clear E. simpl.
  eexists _, (t2 - startTime). split; [reflexivity|].
  split; [constructor; try reflexivity; constructor|].
  split; [reflexivity|]. split; [reflexivity|].
  intros Hsteady. simpl.
  repeat match goal with
         | N : now _ = (_, _) |- _ => apply inWorld_frame in N as (N & _)
         end.
  match goal with
  | N1 : Eff.perform Date_now (world a2) = (inr t1, world a3),
    N2 : Eff.perform Date_now (world a3) = (inr t2, world a4) |- _ =>
      pose proof (consecutive_readings a2 a3 a4 t1 t2 Hsteady N1 N2)
  end.
  lia.
Qed.

Lemma followUpTurns_times chat plan :
  forall l a l' a',
    followUpTurns config chat plan l a = (inr l', a') ->
    exists extra elapsed,
      transcript l' = transcript l ++ extra /\ Timed extra /\
      List.length extra = (2 * List.length plan)%nat /\
      totalResponseTime l' = totalResponseTime l + elapsed /\
      (steady Date_now -> turnTimes extra <= elapsed) /\
      (plan = [] -> elapsed = 0).
Proof.
  induction plan as [|plannedTurn plan IH]; intros l a l' a' E; simpl in E.
  - inversion E; subst. exists [], 0. rewrite app_nil_r.
    repeat split; try constructor; try lia. reflexivity.
  - step E l1 a1.
    match goal with
    | T : followUpTurn _ _ _ _ _ = _ |- _ =>
        apply followUpTurn_times in T as (x1 & d1 & Ht1 & Htimed1 & Hlen1 & Htot1 & Hle1)
    end.
    apply IH in E as (x2 & d2 & Ht2 & Htimed2 & Hlen2 & Htot2 & Hle2 & _).
    exists (x1 ++ x2), (d1 + d2).
    split; [rewrite Ht2, Ht1, <- app_assoc; reflexivity|].
    split; [now apply Timed_app|].
    split; [rewrite length_app, Hlen1, Hlen2; simpl; lia|].
    split; [lia|].
    split; [|discriminate].
    intros Hsteady. rewrite Timed_turnTimes_app.
    specialize (Hle1 Hsteady). specialize (Hle2 Hsteady). lia.
Qed.

Lemma runTest_times scenario expectedOutput a r a' :
  runTest config scenario expectedOutput a = (inr r, a') ->
  exists first extra elapsed,
    allMessages (conversation r) = first ++ extra /\ List.length first = 2%nat /\
    Timed first /\ Timed extra /\
    totalTime (validation r) = turnTimes first + elapsed /\
    (steady Date_now -> turnTimes extra <= elapsed) /\
    (extra = [] -> elapsed = 0).
Proof.
  unfold runTest, Eff.try_catch.
  destruct (runTestBody config scenario expectedOutput a) as [[e|r0] a0] eqn:E.
  { unfold Eff.bind, logError, Eff.throw. discriminate. }
  intros R. inversion R; subst; clear R.
  unfold runTestBody in E.
  step E p a1. destruct p as [testMessage plan].
  step E i a2. destruct i as [[formattedInput chat] l0].
  step E l a3. rewrite multiTurn_turns in *.
  match goal with
  | I : initialTurn _ _ _ = _ |- _ =>
      pose proof (initialTurn_returns _ _ _ _ _ _ _ I) as (e0 & u0 & s0 & Ht0 & _);
      apply initialTurn_times in I as (Htimed0 & Htotal0)
  end.
  match goal with
  | T : followUpTurns _ _ _ _ _ = _ |- _ =>
      apply followUpTurns_times in T
        as (extra & elapsed & Ht & Htimed & Hlen & Htot & Hle & Hnone)
  end.
  apply conclude_returns in E as (valid & met & analysis & _ & _ & -> & _).
  simpl. exists (transcript l0), extra, elapsed.
  split; [exact Ht|]. split; [now rewrite Ht0|]. split; [exact Htimed0|].
  split; [exact Htimed|]. split; [lia|]. split; [exact Hle|].
  intros ->. apply Hnone.
  destruct (turnsOf plan); [reflexivity|simpl in Hlen; discriminate].
Qed.

(** X15. Every entry of the transcript carries the placeholder validation
    score 1, and the two entries of a turn carry the same response time. *)
Theorem transcript_scores_and_times scenario expectedOutput a r a' :
  runTest config scenario expectedOutput a = (inr r, a') ->
  Timed (allMessages (conversation r)).
Proof.
  intros E.
  apply runTest_times in E as (first & extra & elapsed & -> & _ & H1 & H2 & _).
  now apply Timed_app.
Qed.

(** X16. The response time of the verdict against the response times in the
    transcript.  With a clock that does not go back between two readings in a
    row, the total is at least the sum of the times that the turns report: a
    follow-up turn reads the clock once for its own time and once more for the
    total.  With no follow-up turn the two are equal. *)
Theorem total_time_covers_turn_times scenario expectedOutput a r a' :
  runTest config scenario expectedOutput a = (inr r, a') ->
  (steady Date_now ->
   turnTimes (allMessages (conversation r)) <= totalTime (validation r)) /\
  (List.length (allMessages (conversation r)) = 2%nat ->
   turnTimes (allMessages (conversation r)) = totalTime (validation r)).
Proof.
  intros E.
  apply runTest_times in E
    as (first & extra & elapsed & -> & Hlen & _ & _ & Htotal & Hle & Hnone).
  rewrite Timed_turnTimes_app. split.
  - intros Hsteady. specialize (Hle Hsteady). lia.
  - rewrite length_app, Hlen. intros Hextra.
    destruct extra; [|simpl in Hextra; lia].
    pose proof (Hnone eq_refl). simpl. lia.
Qed.

(** ** The memory across runs *)

(** X17. [reset] forgets: after it, a run that returns leaves in the history
    the one exchange of that run and nothing older. *)
Theorem history_after_reset scenario expectedOutput (a : Agent W) r a' :
  runTest config scenario expectedOutput (snd (reset a)) = (inr r, a') ->
  getHistory a' =
    (inr [HumanMessage (humanMessage (conversation r));
          AIMessage (chatResponse (conversation r))], a').
Proof.
  intros E.
  apply runTest_returns in E
    as (planResult & w1 & plan & chat & e0 & calls & u0 & s0 & msgs & _ & _ & _ & _ & _ &
        _ & _ & _ & _ & _ & _ & Hmem & _).
  unfold getHistory. now rewrite Hmem.
Qed.

End Run.

Section Fresh.

Context {W : Type} `{Collaborators W}.

Variable Model : Type.
Variable NEXT_PUBLIC_ANTHROPIC_API_KEY : option string.
Variable Sonnet3_5 : string.
Variable createLangchainModel : string -> string -> Exc Model.

Local Abbreviation constructor :=
  (QaAgentConstructor.constructor Model NEXT_PUBLIC_ANTHROPIC_API_KEY Sonnet3_5
     createLangchainModel).

(** X18. An agent can only be constructed with the API key set and not
    empty; it keeps the configuration it was given and its history is empty,
    so that its first run that returns leaves exactly one exchange in it. *)
Theorem first_run_of_new_agent (cfg : QaAgentConfig) (i : QaAgentConstructor.Instance Model)
    (w : W) scenario expectedOutput r a' :
  constructor cfg = inr i ->
  runTest (QaAgentConstructor.config i) scenario expectedOutput
    (QaAgentConstructor.started Model i w) = (inr r, a') ->
  (exists apiKey, NEXT_PUBLIC_ANTHROPIC_API_KEY = Some apiKey /\ apiKey <> ""%string) /\
  QaAgentConstructor.config i = cfg /\
  getHistory a' =
    (inr [HumanMessage (humanMessage (conversation r));
          AIMessage (chatResponse (conversation r))], a').
Proof.
  unfold QaAgentConstructor.constructor. intros Hnew E.
  destruct NEXT_PUBLIC_ANTHROPIC_API_KEY as [[|c apiKey]|]; try discriminate.
  unfold bind in Hnew.
  destruct (createLangchainModel (QaAgentConstructor.modelIdOf Sonnet3_5 cfg)
              (String c apiKey)) as [e|m]; [discriminate|].
  injection Hnew as <-. simpl in *.
  split; [exists (String c apiKey); split; [reflexivity|discriminate]|].
  split; [reflexivity|].
  apply runTest_returns in E
    as (planResult & w1 & plan & chat & e0 & calls & u0 & s0 & msgs & _ & _ & _ & _ & _ &
        _ & _ & _ & _ & _ & _ & Hmem & _).
  unfold getHistory. now rewrite Hmem.
Qed.

End Fresh.

(** ** On scripted runs *)

(** X11 on two runs: one whose follow-up call is aborted, and one whose
    opening message is empty, so that the memory rejects it after the analysis
    has been made. *)
Lemma runTest_failure_keeps_memory_witness :
  (exists a',
     Doubles.runTest Doubles.timedOut = (inl timeoutError, a') /\
     memory a' = memory (Doubles.freshAgent Doubles.timedOut) /\
     errors a' = errors (Doubles.freshAgent Doubles.timedOut) ++ [timeoutError]) /\
  (exists error a',
     MoreDoubles.runOn (Doubles.freshAgent MoreDoubles.emptyMessage) = (inl error, a') /\
     Doubles.modelReplies (world a') = [] /\
     memory a' = memory (Doubles.freshAgent MoreDoubles.emptyMessage) /\
     errors a' = errors (Doubles.freshAgent MoreDoubles.emptyMessage) ++ [error]).
Proof.
  split.
  - eexists. split; [cbv; reflexivity|].
    eapply (runTest_failure_keeps_memory (H := Doubles.scripted) Doubles.config
              "greets back" "a greeting" (Doubles.freshAgent Doubles.timedOut)).
    vm_compute; reflexivity.
  - do 2 eexists. split; [cbv; reflexivity|]. split; [reflexivity|].
    eapply (runTest_failure_keeps_memory (H := Doubles.scripted) Doubles.config
              "greets back" "a greeting" (Doubles.freshAgent MoreDoubles.emptyMessage)).
    vm_compute; reflexivity.
Defined.

(** X12 on a run whose planning call fails. *)
Lemma planning_failure_stops_run_witness :
  MoreDoubles.runOn (Doubles.freshAgent MoreDoubles.planFails) =
    (inl MoreDoubles.boom,
     {| world := {| Doubles.modelReplies := []; Doubles.apiReplies := [];
                    Doubles.clock := 1000; Doubles.uuids := 0 |};
        memory := memory (Doubles.freshAgent MoreDoubles.planFails);
        exchanges := exchanges (Doubles.freshAgent MoreDoubles.planFails);
        errors := errors (Doubles.freshAgent MoreDoubles.planFails) ++ [MoreDoubles.boom] |}).
Proof.
  apply (planning_failure_stops_run (H := Doubles.scripted) Doubles.config
           "greets back" "a greeting" (Doubles.freshAgent MoreDoubles.planFails)).
  vm_compute; reflexivity.
Defined.

(** X13 on a run whose first call of the API is aborted: what is thrown is
    the [AbortError] itself. *)
Lemma initial_failure_is_not_converted_witness :
  MoreDoubles.runOn (Doubles.freshAgent MoreDoubles.initialAbort) =
    (inl Doubles.abortError,
     {| world := {| Doubles.modelReplies := []; Doubles.apiReplies := [];
                    Doubles.clock := 1005; Doubles.uuids := 0 |};
        memory := memory (Doubles.freshAgent MoreDoubles.initialAbort);
        exchanges := exchanges (Doubles.freshAgent MoreDoubles.initialAbort);
        errors := errors (Doubles.freshAgent MoreDoubles.initialAbort)
                    ++ [Doubles.abortError] |}).
Proof.
  eapply (initial_failure_is_not_converted (H := Doubles.scripted) Doubles.config
            "greets back" "a greeting" (Doubles.freshAgent MoreDoubles.initialAbort))
    with (planResult := "hello"%string) (testMessage := "hello"%string) (plan := None)
         (body := JObject [("message"%string, JString "hello")])
         (startTime := 1000);
    vm_compute; reflexivity.
Defined.

(** X14 on the run with one follow-up turn. *)
Lemma verdicts_on_last_response_witness :
  exists r a',
    Doubles.runTest Doubles.twoTurns = (inr r, a') /\
    exists earlier final,
      exchanges a' = exchanges (Doubles.freshAgent Doubles.twoTurns) ++ earlier ++ [final] /\
      Doubles.validateResponseFormat (response final) JNull
        = inr (formatValid (validation r)) /\
      Doubles.validateCondition (response final) JNull
        = inr (conditionMet (validation r)).
Proof.
  do 2 eexists. split; [cbv; reflexivity|].
  eapply (verdicts_on_last_response (H := Doubles.scripted) Doubles.config
            "greets back" "a greeting" (Doubles.freshAgent Doubles.twoTurns)).
  vm_compute; reflexivity.
Defined.

(** X15 on the run with one follow-up turn. *)
Lemma transcript_scores_and_times_witness :
  exists r a',
    Doubles.runTest Doubles.twoTurns = (inr r, a') /\
    Timed (allMessages (conversation r)).
Proof.
  do 2 eexists. split; [cbv; reflexivity|].
  eapply (transcript_scores_and_times (H := Doubles.scripted) Doubles.config
            "greets back" "a greeting" (Doubles.freshAgent Doubles.twoTurns)).
  vm_compute; reflexivity.
Defined.

(** X16 on the run with one follow-up turn, under a clock that gains 5 ms at
    every reading: the turns report 5 ms each and the total is 15 ms. *)
Lemma total_time_covers_turn_times_witness :
  exists r a',
    Doubles.runTest Doubles.twoTurns = (inr r, a') /\
    turnTimes (allMessages (conversation r)) = 10 /\
    totalTime (validation r) = 15 /\
    turnTimes (allMessages (conversation r)) <= totalTime (validation r).
Proof.
  do 2 eexists. split; [cbv; reflexivity|].
  split; [reflexivity|]. split; [reflexivity|].
  eapply (total_time_covers_turn_times (H := Doubles.scripted) Doubles.config
            "greets back" "a greeting" (Doubles.freshAgent Doubles.twoTurns)).
  - vm_compute; reflexivity.
  - intros w. simpl. lia.
Defined.

(** X17 on an agent whose memory held an older exchange. *)
Lemma history_after_reset_witness :
  exists r a',
    MoreDoubles.runOn (snd (reset MoreDoubles.usedAgent)) = (inr r, a') /\
    getHistory a' =
      (inr [HumanMessage (humanMessage (conversation r));
            AIMessage (chatResponse (conversation r))], a').
Proof.
  do 2 eexists. split; [cbv; reflexivity|].
  eapply (history_after_reset (H := Doubles.scripted) Doubles.config
            "greets back" "a greeting" MoreDoubles.usedAgent).
  vm_compute; reflexivity.
Defined.

(** X18 on an agent constructed with a key. *)
Lemma first_run_of_new_agent_witness :
  exists i r a',
    MoreDoubles.construct (Some "key"%string) = inr i /\
    MoreDoubles.runOn (QaAgentConstructor.started unit i Doubles.twoTurns) = (inr r, a') /\
    (exists apiKey, Some "key"%string = Some apiKey /\ apiKey <> ""%string) /\
    QaAgentConstructor.config i = Doubles.config /\
    getHistory a' =
      (inr [HumanMessage (humanMessage (conversation r));
            AIMessage (chatResponse (conversation r))], a').
Proof.
  do 3 eexists. split; [cbv; reflexivity|]. split; [cbv; reflexivity|].
  eapply (first_run_of_new_agent (H := Doubles.scripted) unit (Some "key"%string)
            "sonnet"%string Doubles.createLangchainModel Doubles.config)
    with (w := Doubles.twoTurns) (scenario := "greets back"%string)
         (expectedOutput := "a greeting"%string).
  - vm_compute; reflexivity.
  - vm_compute; reflexivity.
Defined.

End QaAgentMore.

(* ================================================================== *)
(** * Properties of the client of the test routes                      *)
(* ================================================================== *)

Module AgentTestApiSpec.
Import JS JSFacts AgentTestApi.

Section Api.

Variable W : Type.
Variable fetch : string -> JSON -> Eff W FetchResponse.
Variable ToString : JSON -> string.

Local Abbreviation evaluateAgent := (evaluateAgent W fetch ToString).
Local Abbreviation validateResponse := (validateResponse W fetch ToString).

(** X19. [evaluateAgent] returns a value exactly when the request went
    through, the response is ok and its body parses, and [results[0]] can be
    read off it; the value is then [results[0]], which is [undefined] for an
    empty array.  What the body says under [error] plays no part. *)
Theorem evaluateAgent_returns agentEndpoint input headers w v w' :
  evaluateAgent agentEndpoint input headers w = (inr v, w') <->
  exists res data results,
    fetch "/api/tools/evaluate-agent" (evaluatePayload agentEndpoint input headers) w
      = (inr res, w') /\
    ok res = true /\ json res = inr data /\
    getProp (Some data) "results" = inr results /\ index0 results = inr v.
Proof.
  unfold AgentTestApi.evaluateAgent, Eff.bind, Eff.lift, Eff.throw. split.
  - destruct (fetch _ _ w) as [[e|res] w1]; [discriminate|].
    destruct (json res) as [e|data] eqn:Hdata; [simpl; discriminate|].
    destruct (ok res) eqn:Hok; cbn [negb].
    + destruct (getProp (Some data) "results") as [e|results] eqn:Hres;
        [simpl; discriminate|].
      destruct (index0 results) as [e|v0] eqn:Hv; [simpl; discriminate|].
      intros E. inversion E; subst. exists res, data, results.
      rewrite Hdata. now repeat split.
    + destruct (getProp (Some data) "error"); simpl; discriminate.
  - intros (res & data & results & Hfetch & Hok & Hdata & Hres & Hv).
    rewrite Hfetch, Hdata, Hok. cbn [negb]. rewrite Hres, Hv. reflexivity.
Qed.

(** X20. [validateResponse] returns exactly when the request went through,
    the response is ok and its body parses, and what it returns is the parsed
    body as it is. *)
Theorem validateResponse_returns actualResponse expectedOutput w data w' :
  validateResponse actualResponse expectedOutput w = (inr data, w') <->
  exists res,
    fetch "/api/tools/validate-response" (validatePayload actualResponse expectedOutput) w
      = (inr res, w') /\
    ok res = true /\ json res = inr data.
Proof.
  unfold AgentTestApi.validateResponse, Eff.bind, Eff.lift, Eff.throw, Eff.ret. split.
  - destruct (fetch _ _ w) as [[e|res] w1]; [discriminate|].
    destruct (json res) as [e|data0] eqn:Hdata; [simpl; discriminate|].
    destruct (ok res) eqn:Hok; cbn [negb].
    + intros E. inversion E; subst. exists res. rewrite Hdata. now repeat split.
    + destruct (getProp (Some data0) "error"); simpl; discriminate.
  - intros (res & Hfetch & Hok & Hdata). rewrite Hfetch, Hdata, Hok. reflexivity.
Qed.

(** X21. A response that is not ok makes [evaluateAgent] throw, whatever
    else its body holds: when the body is an object, what is thrown is an
    [Error] whose message is the body's [error] field. *)
Theorem evaluateAgent_not_ok agentEndpoint input headers w res w1 fields :
  fetch "/api/tools/evaluate-agent" (evaluatePayload agentEndpoint input headers) w
    = (inr res, w1) ->
  ok res = false ->
  json res = inr (JObject fields) ->
  evaluateAgent agentEndpoint input headers w
    = (inl (errorOf ToString (lookup "error" fields)), w1).
Proof.
  intros Hfetch Hok Hdata.
  unfold AgentTestApi.evaluateAgent, Eff.bind, Eff.lift, Eff.throw.
  rewrite Hfetch, Hdata, Hok. reflexivity.
Qed.

End Api.

(** X21 on a response that is refused although its body holds results. *)
Lemma evaluateAgent_not_ok_witness :
  AgentTestApi.evaluateAgent unit (MoreDoubles.canned MoreDoubles.refused)
    (fun _ => "[object Object]") "http://agent" (Some (JString "hi")) None tt
  = (inl (newError "agent unreachable"), tt).
Proof.
  apply (evaluateAgent_not_ok unit (MoreDoubles.canned MoreDoubles.refused)
           (fun _ => "[object Object]") "http://agent" (Some (JString "hi")) None tt
           MoreDoubles.refused tt
           [("error", JString "agent unreachable"); ("results", JArray [JString "stale"])]);
    reflexivity.
Defined.

End AgentTestApiSpec.
